(** * JNI bridge between the Dictator app and the whisper engine

    A shallow embedding of [android/app/src/main/cpp/whisper-jni.cpp]: the
    three entry points [initContext], [transcribe] and [freeContext] that the
    Kotlin class [WhisperLib] calls, together with the parts of the JNI
    environment, of [std::string] and of the whisper C API that they use.

    The bridge is stateful glue: it calls into the engine, into the JNI
    environment and into the Android log.  Every such call is recorded as an
    [Event]; an entry point is a function from the engine's state to an
    outcome, the engine's new state and the events it emitted, in order. *)

From Stdlib Require Import ZArith List Bool Ascii String Lia.
Import ListNotations.

Local Open Scope string_scope.
Local Open Scope list_scope.
Local Open Scope Z_scope.

(** ** Machine integers and pointers

    [jlong] is a signed 64-bit integer.  A [whisper_context*] is an address
    of an LP64 target (arm64-v8a, x86_64), an unsigned 64-bit value with
    [nullptr = 0].  The two C-style casts of the source are written out. *)

Module Mach.

Definition two64 : Z := 2 ^ 64.

Definition jlong_range (h : Z) : Prop := - 2 ^ 63 <= h < 2 ^ 63.
Definition ptr_range (p : Z) : Prop := 0 <= p < two64.

Definition nullptr : Z := 0.

(** [(jlong) ctx] *)
Definition jlong_of_ptr (p : Z) : Z :=
  let u := p mod two64 in
  if u <? 2 ^ 63 then u else u - two64.

(** [(struct whisper_context * ) contextPtr] *)
Definition ptr_of_jlong (h : Z) : Z := h mod two64.

(** [size_t] arithmetic. *)
Definition size_t_wrap (z : Z) : Z := z mod two64.

End Mach.

(** ** Outcomes

    The source has no [throw] of its own, but [std::string::substr] throws
    [std::out_of_range] when its position lies past the end.  An exception
    that leaves an entry point would cross the JNI boundary, so the model
    keeps it visible instead of hiding it. *)

Inductive cpp_exception : Type :=
| out_of_range.

Inductive outcome (A : Type) : Type :=
| Returned (a : A)
| Thrown (x : cpp_exception).

Arguments Returned {A} a.
Arguments Thrown {A} x.

(** ** The part of [std::string] the bridge uses *)

Module StdString.

(** [std::string::npos], that is [(size_t) -1]. *)
Definition npos : Z := Mach.two64 - 1.

Definition size (s : string) : Z := Z.of_nat (String.length s).

(** Membership of a character in the set given to the [find_*_not_of]
    family. *)
Fixpoint char_in (c : ascii) (set : string) : bool :=
  match set with
  | EmptyString => false
  | String d set' => Ascii.eqb c d || char_in c set'
  end.

(** What a [const char*] denotes: the characters before the first NUL. *)
Fixpoint c_chars (s : string) : string :=
  match s with
  | EmptyString => EmptyString
  | String c s' => if Ascii.eqb c zero then EmptyString else String c (c_chars s')
  end.

(** No NUL among the characters of [s]. *)
Fixpoint no_nul (s : string) : bool :=
  match s with
  | EmptyString => true
  | String c s' => negb (Ascii.eqb c zero) && no_nul s'
  end.

(** [text.c_str()]: a pointer to the buffer.  A [const char*] is kept as
    the bytes it points at; whoever reads it, reads [c_chars] of them. *)
Definition c_str (s : string) : string := s.

(** [text += segText] with [segText] a [const char*]. *)
Definition append_c (text segText : string) : string :=
  String.append text (c_chars segText).

Fixpoint first_not_of_from (text set : string) (pos : Z) : option Z :=
  match text with
  | EmptyString => None
  | String c rest =>
      if char_in c set then first_not_of_from rest set (pos + 1) else Some pos
  end.

Fixpoint last_not_of_from (text set : string) (pos : Z) : option Z :=
  match text with
  | EmptyString => None
  | String c rest =>
      match last_not_of_from rest set (pos + 1) with
      | Some j => Some j
      | None => if char_in c set then None else Some pos
      end
  end.

Definition index_or_npos (o : option Z) : Z :=
  match o with
  | Some i => i
  | None => npos
  end.

(** [text.find_first_not_of(set)]: the least index whose character is not in
    [set], [npos] when there is none. *)
Definition find_first_not_of (text set : string) : Z :=
  index_or_npos (first_not_of_from text set 0).

(** [text.find_last_not_of(set)]: the greatest such index, [npos] when there
    is none. *)
Definition find_last_not_of (text set : string) : Z :=
  index_or_npos (last_not_of_from text set 0).

(** [text.substr(pos, n)]: throws when [pos > size()], otherwise the
    [min(n, size() - pos)] characters from [pos] on. *)
Definition substr (text : string) (pos n : Z) : outcome string :=
  if size text <? pos then Thrown out_of_range
  else Returned (String.substring (Z.to_nat pos)
                                  (Z.to_nat (Z.min n (size text - pos)))
                                  text).

End StdString.

(** ** The whisper C API

    [whisper.h] belongs to the wrapped library, not to this repository.  The
    bridge is therefore verified against an arbitrary engine: any
    implementation of the seven functions it calls, over any engine state. *)

(** Modelled from the spec: [whisper.h] is not among the sources.  The
    strategy enumeration that [whisper_full_default_params] takes; the bridge
    only ever names the greedy one. *)
Inductive whisper_sampling_strategy : Type :=
| WHISPER_SAMPLING_GREEDY
| WHISPER_SAMPLING_BEAM_SEARCH.

(** Modelled from the spec: [whisper.h] is not among the sources.  The
    decoding parameters: the fields that the bridge assigns, the strategy
    recorded by the engine, and every remaining field of the struct behind
    [other_fields].  [language] is a [const char*] to a literal. *)
Record whisper_full_params (Other : Type) : Type := mk_full_params {
  strategy : whisper_sampling_strategy;
  n_threads : Z;
  translate : bool;
  no_context : bool;
  single_segment : bool;
  print_special : bool;
  print_progress : bool;
  print_realtime : bool;
  print_timestamps : bool;
  language : string;
  other_fields : Other
}.

Arguments mk_full_params {Other}.
Arguments strategy {Other} _.
Arguments n_threads {Other} _.
Arguments translate {Other} _.
Arguments no_context {Other} _.
Arguments single_segment {Other} _.
Arguments print_special {Other} _.
Arguments print_progress {Other} _.
Arguments print_realtime {Other} _.
Arguments print_timestamps {Other} _.
Arguments language {Other} _.
Arguments other_fields {Other} _.

(** A PCM sample, an IEEE-754 binary32 value kept as its bit pattern: the
    bridge hands samples over and never computes with one. *)
Definition jfloat : Type := Z.

Class WhisperEngine : Type := {
  engine_state : Type;
  whisper_context_params : Type;
  whisper_full_params_rest : Type;

  whisper_context_default_params : whisper_context_params;
  (** Returns the new context, [nullptr] when the model cannot be loaded. *)
  whisper_init_from_file_with_params :
    string -> whisper_context_params -> engine_state -> Z * engine_state;
  whisper_full_default_params :
    whisper_sampling_strategy -> whisper_full_params whisper_full_params_rest;
  (** Returns the status, [0] for success. *)
  whisper_full :
    Z -> whisper_full_params whisper_full_params_rest -> list jfloat -> Z ->
    engine_state -> Z * engine_state;
  whisper_full_n_segments : Z -> engine_state -> Z;
  (** [None] is a null text pointer; [Some s] points at the bytes [s]. *)
  whisper_full_get_segment_text : Z -> Z -> engine_state -> option string;
  whisper_free : Z -> engine_state -> engine_state
}.

(** Field assignments [params.f = v]. *)
Section Assign.
Context {Other : Type}.
Implicit Type p : whisper_full_params Other.

Definition set_print_progress p (v : bool) :=
  mk_full_params (strategy p) (n_threads p) (translate p) (no_context p)
    (single_segment p) (print_special p) v (print_realtime p)
    (print_timestamps p) (language p) (other_fields p).
Definition set_print_special p (v : bool) :=
  mk_full_params (strategy p) (n_threads p) (translate p) (no_context p)
    (single_segment p) v (print_progress p) (print_realtime p)
    (print_timestamps p) (language p) (other_fields p).
Definition set_print_timestamps p (v : bool) :=
  mk_full_params (strategy p) (n_threads p) (translate p) (no_context p)
    (single_segment p) (print_special p) (print_progress p)
    (print_realtime p) v (language p) (other_fields p).
Definition set_print_realtime p (v : bool) :=
  mk_full_params (strategy p) (n_threads p) (translate p) (no_context p)
    (single_segment p) (print_special p) (print_progress p) v
    (print_timestamps p) (language p) (other_fields p).
Definition set_translate p (v : bool) :=
  mk_full_params (strategy p) (n_threads p) v (no_context p)
    (single_segment p) (print_special p) (print_progress p)
    (print_realtime p) (print_timestamps p) (language p) (other_fields p).
Definition set_language p (v : string) :=
  mk_full_params (strategy p) (n_threads p) (translate p) (no_context p)
    (single_segment p) (print_special p) (print_progress p)
    (print_realtime p) (print_timestamps p) v (other_fields p).
Definition set_n_threads p (v : Z) :=
  mk_full_params (strategy p) v (translate p) (no_context p)
    (single_segment p) (print_special p) (print_progress p)
    (print_realtime p) (print_timestamps p) (language p) (other_fields p).
Definition set_no_context p (v : bool) :=
  mk_full_params (strategy p) (n_threads p) (translate p) v
    (single_segment p) (print_special p) (print_progress p)
    (print_realtime p) (print_timestamps p) (language p) (other_fields p).
Definition set_single_segment p (v : bool) :=
  mk_full_params (strategy p) (n_threads p) (translate p) (no_context p)
    v (print_special p) (print_progress p)
    (print_realtime p) (print_timestamps p) (language p) (other_fields p).
End Assign.

(** ** Events *)

Inductive android_LogPriority : Type :=
| ANDROID_LOG_INFO
| ANDROID_LOG_ERROR.

(** Arguments of a log line.  [ArgQuotient n d] is the [float] quotient
    [n / d] of the source, which is printed and used for nothing else. *)
Inductive log_arg : Type :=
| ArgString (s : string)
| ArgInt (z : Z)
| ArgQuotient (n d : Z).

Section Effects.
Context {W : WhisperEngine}.

Definition full_params : Type :=
  whisper_full_params whisper_full_params_rest.

(** A Java [String] is kept as its modified UTF-8 bytes, a [jfloatArray]
    as the list of its elements. *)
Inductive Event : Type :=
| GetStringUTFChars_ev (str : string)
| ReleaseStringUTFChars_ev (str chars : string)
| NewStringUTF_ev (bytes : string)
| GetArrayLength_ev (array : list jfloat)
| GetFloatArrayElements_ev (array : list jfloat)
| ReleaseFloatArrayElements_ev (array elems : list jfloat) (mode : Z)
| android_log_print (prio : android_LogPriority) (tag fmt : string)
                    (args : list log_arg)
| whisper_context_default_params_ev
| whisper_init_from_file_with_params_ev (path : string)
                                        (cparams : whisper_context_params)
| whisper_full_default_params_ev (s : whisper_sampling_strategy)
| whisper_full_ev (ctx : Z) (params : full_params)
                  (samples : list jfloat) (n_samples : Z)
| whisper_full_n_segments_ev (ctx : Z)
| whisper_full_get_segment_text_ev (ctx i : Z)
| whisper_free_ev (ctx : Z).

(** *** The monad of the bridge: engine state, events, exceptions *)

Definition M (A : Type) : Type :=
  engine_state -> outcome A * engine_state * list Event.

Definition ret {A} (a : A) : M A := fun e => (Returned a, e, []).

Definition bind {A B} (m : M A) (k : A -> M B) : M B :=
  fun e =>
    match m e with
    | (Returned a, e1, t1) =>
        match k a e1 with
        | (r, e2, t2) => (r, e2, t1 ++ t2)
        end
    | (Thrown x, e1, t1) => (Thrown x, e1, t1)
    end.

Definition emit (ev : Event) : M unit := fun e => (Returned tt, e, [ev]).

Definition lift_outcome {A} (o : outcome A) : M A := fun e => (o, e, []).

End Effects.

Notation "x <- m ;; k" := (bind m (fun x => k))
  (at level 61, m at next level, right associativity).
Notation "m ;;; k" := (bind m (fun _ => k))
  (at level 61, right associativity).

(** ** The bridge *)

Section EntryPoints.
Context {W : WhisperEngine}.

(** [#define TAG "WhisperJNI"], [LOGI] and [LOGE]. *)
Definition TAG : string := "WhisperJNI".

(** A [%s] argument is read as a C string. *)
Definition read_arg (a : log_arg) : log_arg :=
  match a with
  | ArgString s => ArgString (StdString.c_chars s)
  | _ => a
  end.

Definition LOGI (fmt : string) (args : list log_arg) : M unit :=
  emit (android_log_print ANDROID_LOG_INFO TAG fmt (map read_arg args)).

Definition LOGE (fmt : string) (args : list log_arg) : M unit :=
  emit (android_log_print ANDROID_LOG_ERROR TAG fmt (map read_arg args)).

(** *** JNI environment

    The calls of [JNIEnv] that the bridge makes, each on the path where the
    runtime has the memory it asks for. *)

Definition GetStringUTFChars (str : string) : M string :=
  emit (GetStringUTFChars_ev str) ;;; ret str.

Definition ReleaseStringUTFChars (str chars : string) : M unit :=
  emit (ReleaseStringUTFChars_ev str chars).

(** Reads its [const char*] argument up to the terminator. *)
Definition NewStringUTF (bytes : string) : M string :=
  emit (NewStringUTF_ev (StdString.c_chars bytes)) ;;;
  ret (StdString.c_chars bytes).

(** The length of a Java array is a non-negative [jsize]. *)
Definition GetArrayLength (array : list jfloat) : M Z :=
  emit (GetArrayLength_ev array) ;;; ret (Z.of_nat (List.length array)).

Definition GetFloatArrayElements (array : list jfloat) : M (list jfloat) :=
  emit (GetFloatArrayElements_ev array) ;;; ret array.

Definition ReleaseFloatArrayElements (array elems : list jfloat) (mode : Z)
  : M unit :=
  emit (ReleaseFloatArrayElements_ev array elems mode).

(** *** Calls into the engine *)

Definition call_whisper_context_default_params : M whisper_context_params :=
  emit whisper_context_default_params_ev ;;;
  ret whisper_context_default_params.

Definition call_whisper_init_from_file_with_params
    (path : string) (cparams : whisper_context_params) : M Z :=
  fun e =>
    let '(ctx, e') := whisper_init_from_file_with_params path cparams e in
    (Returned ctx, e', [whisper_init_from_file_with_params_ev path cparams]).

Definition call_whisper_full_default_params (s : whisper_sampling_strategy)
  : M full_params :=
  emit (whisper_full_default_params_ev s) ;;;
  ret (whisper_full_default_params s).

Definition call_whisper_full (ctx : Z) (params : full_params)
    (samples : list jfloat) (n_samples : Z) : M Z :=
  fun e =>
    let '(status, e') := whisper_full ctx params samples n_samples e in
    (Returned status, e', [whisper_full_ev ctx params samples n_samples]).

Definition call_whisper_full_n_segments (ctx : Z) : M Z :=
  fun e =>
    (Returned (whisper_full_n_segments ctx e), e,
     [whisper_full_n_segments_ev ctx]).

Definition call_whisper_full_get_segment_text (ctx i : Z)
  : M (option string) :=
  fun e =>
    (Returned (whisper_full_get_segment_text ctx i e), e,
     [whisper_full_get_segment_text_ev ctx i]).

Definition call_whisper_free (ctx : Z) : M unit :=
  fun e => (Returned tt, whisper_free ctx e, [whisper_free_ev ctx]).

(** *** [initContext] (lines 12-30) *)

Definition Java_it_shek_dictator_app_WhisperLib_initContext
    (modelPath : string) : M Z :=
  path <- GetStringUTFChars modelPath ;;
  LOGI "Loading model from: %s" [ArgString path] ;;;
  cparams <- call_whisper_context_default_params ;;
  ctx <- call_whisper_init_from_file_with_params path cparams ;;
  ReleaseStringUTFChars modelPath path ;;;
  if ctx =? Mach.nullptr then
    LOGE "Failed to load model" [] ;;;
    ret 0
  else
    LOGI "Model loaded successfully" [] ;;;
    ret (Mach.jlong_of_ptr ctx).

(** *** [transcribe] (lines 32-85) *)

(** The characters [" \t\n\r"] handed to the two searches. *)
Definition trim_set : string :=
  String " " (String "009" (String "010" (String "013" EmptyString))).

(** The assignments of lines 46-54, in source order. *)
Definition pin_params (params : full_params) : full_params :=
  let params := set_print_progress params false in
  let params := set_print_special params false in
  let params := set_print_timestamps params false in
  let params := set_print_realtime params false in
  let params := set_translate params false in
  let params := set_language params "en" in
  let params := set_n_threads params 4 in
  let params := set_no_context params true in
  let params := set_single_segment params false in
  params.

(** The loop of lines 67-72.  [i] only grows up to [nSegments], so
    [Z.to_nat nSegments] rounds are all the loop can make from [i = 0]; the
    test [i < nSegments] is the one that ends it. *)
Fixpoint segments_loop (ctx nSegments : Z) (rounds : nat) (i : Z)
    (text : string) : M string :=
  match rounds with
  | O => ret text
  | S rounds' =>
      if i <? nSegments then
        segText <- call_whisper_full_get_segment_text ctx i ;;
        let text :=
          match segText with
          | Some s => StdString.append_c text s
          | None => text
          end in
        segments_loop ctx nSegments rounds' (i + 1) text
      else ret text
  end.

(** Lines 74-81. *)
Definition trim_text (text : string) : outcome string :=
  let start := StdString.find_first_not_of text trim_set in
  let end_ := StdString.find_last_not_of text trim_set in
  if negb (start =? StdString.npos) then
    StdString.substr text start (Mach.size_t_wrap (end_ - start + 1))
  else
    Returned "".

Definition Java_it_shek_dictator_app_WhisperLib_transcribe
    (contextPtr : Z) (audioData : list jfloat) : M string :=
  let ctx := Mach.ptr_of_jlong contextPtr in
  if ctx =? Mach.nullptr then
    NewStringUTF ""
  else
    numSamples <- GetArrayLength audioData ;;
    samples <- GetFloatArrayElements audioData ;;
    LOGI "Transcribing %d samples (%.1fs)"
         [ArgInt numSamples; ArgQuotient numSamples 16000] ;;;
    params <- call_whisper_full_default_params WHISPER_SAMPLING_GREEDY ;;
    let params := pin_params params in
    result <- call_whisper_full ctx params samples numSamples ;;
    ReleaseFloatArrayElements audioData samples 0 ;;;
    if negb (result =? 0) then
      LOGE "Transcription failed with code %d" [ArgInt result] ;;;
      NewStringUTF ""
    else
      nSegments <- call_whisper_full_n_segments ctx ;;
      text <- segments_loop ctx nSegments (Z.to_nat nSegments) 0 "" ;;
      text <- lift_outcome (trim_text text) ;;
      LOGI "Transcription result: %s" [ArgString (StdString.c_str text)] ;;;
      NewStringUTF (StdString.c_str text).

(** *** [freeContext] (lines 87-95) *)

Definition Java_it_shek_dictator_app_WhisperLib_freeContext
    (contextPtr : Z) : M unit :=
  let ctx := Mach.ptr_of_jlong contextPtr in
  if negb (ctx =? Mach.nullptr) then
    call_whisper_free ctx ;;;
    LOGI "Context freed" []
  else
    ret tt.

End EntryPoints.

(** ** Reading the result of a call *)

Section Observations.
Context {W : WhisperEngine}.

Definition outcome_of {A} (r : outcome A * engine_state * list Event)
  : outcome A := fst (fst r).
Definition state_of {A} (r : outcome A * engine_state * list Event)
  : engine_state := snd (fst r).
Definition events_of {A} (r : outcome A * engine_state * list Event)
  : list Event := snd r.

(** Calls that enter the engine. *)
Definition is_engine_call (ev : Event) : bool :=
  match ev with
  | whisper_context_default_params_ev
  | whisper_init_from_file_with_params_ev _ _
  | whisper_full_default_params_ev _
  | whisper_full_ev _ _ _ _
  | whisper_full_n_segments_ev _
  | whisper_full_get_segment_text_ev _ _
  | whisper_free_ev _ => true
  | _ => false
  end.

(** Events that carry the caller's audio array or its elements. *)
Definition touches_audio (ev : Event) : bool :=
  match ev with
  | GetArrayLength_ev _
  | GetFloatArrayElements_ev _
  | ReleaseFloatArrayElements_ev _ _ _
  | whisper_full_ev _ _ _ _ => true
  | _ => false
  end.

Definition is_log (ev : Event) : bool :=
  match ev with
  | android_log_print _ _ _ _ => true
  | _ => false
  end.

Definition is_audio_acquire (ev : Event) : bool :=
  match ev with
  | GetFloatArrayElements_ev _ => true
  | _ => false
  end.

Definition is_audio_release (ev : Event) : bool :=
  match ev with
  | ReleaseFloatArrayElements_ev _ _ _ => true
  | _ => false
  end.

Definition is_path_release (ev : Event) : bool :=
  match ev with
  | ReleaseStringUTFChars_ev _ _ => true
  | _ => false
  end.

Definition is_free (ev : Event) : bool :=
  match ev with
  | whisper_free_ev _ => true
  | _ => false
  end.

Definition count (f : Event -> bool) (evs : list Event) : nat :=
  List.length (filter f evs).

(** The arguments of every [whisper_full] call of a trace, in order. *)
Fixpoint full_calls (evs : list Event)
  : list (Z * full_params * list jfloat * Z) :=
  match evs with
  | [] => []
  | whisper_full_ev ctx params samples n :: evs' =>
      (ctx, params, samples, n) :: full_calls evs'
  | _ :: evs' => full_calls evs'
  end.

(** [k] consecutive indices from [i] on. *)
Fixpoint indices (i : Z) (k : nat) : list Z :=
  match k with
  | O => []
  | S k' => i :: indices (i + 1) k'
  end.

(** The text of segment [i] as a list: nothing for a null pointer, the C
    string otherwise. *)
Definition segment_text (ctx : Z) (e : engine_state) (i : Z) : list string :=
  match whisper_full_get_segment_text ctx i e with
  | Some s => [StdString.c_chars s]
  | None => []
  end.

(** The texts of the segments the engine reports in state [e], in order,
    those with a null pointer left out. *)
Definition reported_segment_texts (ctx : Z) (e : engine_state) : list string :=
  flat_map (segment_text ctx e)
           (indices 0 (Z.to_nat (whisper_full_n_segments ctx e))).

(** What [transcribe] emits, for a non-null context, up to and including
    the release of the audio array: lines 40-58. *)
Definition inference_events (ctx : Z) (audioData : list jfloat) : list Event :=
  let numSamples := Z.of_nat (List.length audioData) in
  [ GetArrayLength_ev audioData;
    GetFloatArrayElements_ev audioData;
    android_log_print ANDROID_LOG_INFO TAG "Transcribing %d samples (%.1fs)"
                      [ArgInt numSamples; ArgQuotient numSamples 16000];
    whisper_full_default_params_ev WHISPER_SAMPLING_GREEDY;
    whisper_full_ev ctx
                    (pin_params (whisper_full_default_params
                                   WHISPER_SAMPLING_GREEDY))
                    audioData numSamples;
    ReleaseFloatArrayElements_ev audioData audioData 0 ].

(** What [initContext] emits up to and including the release of the
    native copy of the path: lines 15-21. *)
Definition loading_events (modelPath : string) : list Event :=
  [ GetStringUTFChars_ev modelPath;
    android_log_print ANDROID_LOG_INFO TAG "Loading model from: %s"
                      [ArgString (StdString.c_chars modelPath)];
    whisper_context_default_params_ev;
    whisper_init_from_file_with_params_ev modelPath
                                          whisper_context_default_params;
    ReleaseStringUTFChars_ev modelPath modelPath ].

(** What it emits after a successful inference while it gathers the
    segments: lines 66-72. *)
Definition gathering_events (ctx : Z) (e : engine_state) : list Event :=
  whisper_full_n_segments_ev ctx ::
  map (whisper_full_get_segment_text_ev ctx)
      (indices 0 (Z.to_nat (whisper_full_n_segments ctx e))).

(** The engine gives the same answers from [e1] and from [e2] to the one
    inference a [transcribe] makes: the same status and, when that status is
    0, the same segment count and the same text at every reported index.
    Nothing is asked of other states, other arguments or other indices. *)
Definition same_inference_answers (ctx : Z) (params : full_params)
    (samples : list jfloat) (n : Z) (e1 e2 : engine_state) : Prop :=
  let r1 := whisper_full ctx params samples n e1 in
  let r2 := whisper_full ctx params samples n e2 in
  fst r1 = fst r2 /\
  (fst r1 = 0 ->
   whisper_full_n_segments ctx (snd r1) = whisper_full_n_segments ctx (snd r2) /\
   forall i, 0 <= i < whisper_full_n_segments ctx (snd r1) ->
             whisper_full_get_segment_text ctx i (snd r1)
             = whisper_full_get_segment_text ctx i (snd r2)).

End Observations.

(** ** The transcript rule, as the specification words it *)

Module Transcript.

(** Space, tab, newline, carriage return. *)
Definition is_ascii_whitespace (c : ascii) : bool :=
  let n := N_of_ascii c in
  ((n =? 32) || (n =? 9) || (n =? 10) || (n =? 13))%N.

(** Concatenation in order, with no separator. *)
Fixpoint concatenation (segments : list string) : string :=
  match segments with
  | [] => EmptyString
  | s :: rest => String.append s (concatenation rest)
  end.

Fixpoint strip_leading (s : string) : string :=
  match s with
  | EmptyString => EmptyString
  | String c s' => if is_ascii_whitespace c then strip_leading s' else s
  end.

Fixpoint strip_trailing (s : string) : string :=
  match s with
  | EmptyString => EmptyString
  | String c s' =>
      match strip_trailing s' with
      | EmptyString =>
          if is_ascii_whitespace c then EmptyString else String c EmptyString
      | t => String c t
      end
  end.

Definition trimmed (s : string) : string := strip_trailing (strip_leading s).

(** The leading whitespace of [s], counted. *)
Definition leading (s : string) : nat :=
  (String.length s - String.length (strip_leading s))%nat.

Fixpoint all_whitespace (s : string) : bool :=
  match s with
  | EmptyString => true
  | String c s' => is_ascii_whitespace c && all_whitespace s'
  end.

Definition starts_with_whitespace (s : string) : bool :=
  match s with
  | EmptyString => false
  | String c _ => is_ascii_whitespace c
  end.

Fixpoint ends_with_whitespace (s : string) : bool :=
  match s with
  | EmptyString => false
  | String c EmptyString => is_ascii_whitespace c
  | String _ s' => ends_with_whitespace s'
  end.

End Transcript.

(** ** A small engine to run the bridge on

    It loads exactly one model file, rejects an empty buffer with status
    [-3], and otherwise reports three segments, the middle one with a null
    text pointer.  Its state is the list of segments of the last run. *)

Module Demo.

Definition model_file : string := "ggml-tiny.en.bin".

(** A heap address as Android hands them out on arm64, tagged in its top
    byte; as a [jlong] it is negative. *)
Definition context_address : Z := 0xb400007a3c5d9000.

Definition segments : list (option string) :=
  [Some " foo"; None; Some "bar "].

Definition engine : WhisperEngine := {|
  engine_state := list (option string);
  whisper_context_params := unit;
  whisper_full_params_rest := unit;
  whisper_context_default_params := tt;
  whisper_init_from_file_with_params path _ e :=
    (if String.eqb path model_file then context_address else 0, e);
  whisper_full_default_params s :=
    mk_full_params s 1 true false true true true true true "auto" tt;
  whisper_full ctx params samples n e :=
    if n =? 0 then (-3, []) else (0, segments);
  whisper_full_n_segments ctx e := Z.of_nat (List.length e);
  whisper_full_get_segment_text ctx i e :=
    match nth_error e (Z.to_nat i) with
    | Some t => t
    | None => None
    end;
  whisper_free ctx e := []
|}.

Definition handle : Z := Eval vm_compute in Mach.jlong_of_ptr context_address.

Definition audio : list jfloat := [1065353216; 0; 3212836864].

(** The engine before any inference. *)
Definition fresh : engine_state (WhisperEngine := engine) := [].

End Demo.

(** ** Sequences of calls

    What the Kotlin side does with the three entry points: it keeps the
    [jlong] that [initContext] gave and hands it back later.  A sequence stops
    at the first call that throws. *)

Section Sequences.
Context {W : WhisperEngine}.

(** [initContext], then [transcribe] on the handle it returned. *)
Definition load_and_transcribe (modelPath : string) (audioData : list jfloat)
  : M string :=
  contextPtr <- Java_it_shek_dictator_app_WhisperLib_initContext modelPath ;;
  Java_it_shek_dictator_app_WhisperLib_transcribe contextPtr audioData.

(** [initContext], [transcribe], [freeContext], all on the same handle. *)
Definition session (modelPath : string) (audioData : list jfloat)
  : M string :=
  contextPtr <- Java_it_shek_dictator_app_WhisperLib_initContext modelPath ;;
  text <- Java_it_shek_dictator_app_WhisperLib_transcribe contextPtr audioData ;;
  Java_it_shek_dictator_app_WhisperLib_freeContext contextPtr ;;;
  ret text.

(** [freeContext] twice on the same handle. *)
Definition free_twice (contextPtr : Z) : M unit :=
  Java_it_shek_dictator_app_WhisperLib_freeContext contextPtr ;;;
  Java_it_shek_dictator_app_WhisperLib_freeContext contextPtr.

(** [freeContext], then [transcribe] on the handle just freed. *)
Definition transcribe_after_free (contextPtr : Z) (audioData : list jfloat)
  : M string :=
  Java_it_shek_dictator_app_WhisperLib_freeContext contextPtr ;;;
  Java_it_shek_dictator_app_WhisperLib_transcribe contextPtr audioData.

Definition is_error_log (ev : Event) : bool :=
  match ev with
  | android_log_print ANDROID_LOG_ERROR _ _ _ => true
  | _ => false
  end.

(** Calls that create or destroy a context. *)
Definition is_lifecycle_call (ev : Event) : bool :=
  match ev with
  | whisper_context_default_params_ev
  | whisper_init_from_file_with_params_ev _ _
  | whisper_free_ev _ => true
  | _ => false
  end.

(** Calls that run an inference or read its result. *)
Definition is_inference_call (ev : Event) : bool :=
  match ev with
  | whisper_full_default_params_ev _
  | whisper_full_ev _ _ _ _
  | whisper_full_n_segments_ev _
  | whisper_full_get_segment_text_ev _ _ => true
  | _ => false
  end.

(** The contexts given to [whisper_free] in a trace, in order. *)
Definition free_calls (evs : list Event) : list Z :=
  flat_map (fun ev => match ev with
                      | whisper_free_ev ctx => [ctx]
                      | _ => []
                      end) evs.

(** The arguments of every [whisper_full_get_segment_text] call of a trace,
    in order. *)
Definition segment_reads (evs : list Event) : list (Z * Z) :=
  flat_map (fun ev => match ev with
                      | whisper_full_get_segment_text_ev ctx i => [(ctx, i)]
                      | _ => []
                      end) evs.

End Sequences.

(** ** Engines that report a given list of segments

    [Quiet.engine segs] loads every model at one address, always succeeds,
    and reports [segs] after each inference. *)

Module Quiet.

Definition context_address : Z := 0x7a3c5d9000.

Definition engine (segs : list (option string)) : WhisperEngine := {|
  engine_state := list (option string);
  whisper_context_params := unit;
  whisper_full_params_rest := unit;
  whisper_context_default_params := tt;
  whisper_init_from_file_with_params path _ e := (context_address, e);
  whisper_full_default_params s :=
    mk_full_params s 2 false false false false false false false "auto" tt;
  whisper_full ctx params samples n e := (0, segs);
  whisper_full_n_segments ctx e := Z.of_nat (List.length e);
  whisper_full_get_segment_text ctx i e :=
    match nth_error e (Z.to_nat i) with
    | Some t => t
    | None => None
    end;
  whisper_free ctx e := []
|}.

Definition handle : Z := Eval vm_compute in Mach.jlong_of_ptr context_address.

End Quiet.

(** ** An engine whose transcript depends on its state

    The state of [Named.engine] is the name of the model it has loaded and
    the segments of its last inference; the transcript names the model, so
    the same samples give different texts after different loads. *)

Module Named.

Definition context_address : Z := 0x7a3c5d9000.

Definition engine : WhisperEngine := {|
  engine_state := string * list (option string);
  whisper_context_params := unit;
  whisper_full_params_rest := unit;
  whisper_context_default_params := tt;
  whisper_init_from_file_with_params path _ e :=
    (context_address, (path, []));
  whisper_full_default_params s :=
    mk_full_params s 2 false false false false false false false "auto" tt;
  whisper_full ctx params samples n e :=
    (0, (fst e, [Some " heard by "; Some (fst e)]));
  whisper_full_n_segments ctx e := Z.of_nat (List.length (snd e));
  whisper_full_get_segment_text ctx i e :=
    match nth_error (snd e) (Z.to_nat i) with
    | Some t => t
    | None => None
    end;
  whisper_free ctx e := (EmptyString, [])
|}.

Definition handle : Z := Eval vm_compute in Mach.jlong_of_ptr context_address.

Definition tiny : engine_state (WhisperEngine := engine) := ("tiny", []).

End Named.

(** ** An engine that answers outside the reported segments

    [Stray.engine] reports two segments, both with a null text pointer, and
    gives a text for every index that is not one of the two. *)

Module Stray.

Definition context_address : Z := 0x7a3c5d9000.

Definition engine : WhisperEngine := {|
  engine_state := unit;
  whisper_context_params := unit;
  whisper_full_params_rest := unit;
  whisper_context_default_params := tt;
  whisper_init_from_file_with_params path _ e := (context_address, e);
  whisper_full_default_params s :=
    mk_full_params s 2 false false false false false false false "auto" tt;
  whisper_full ctx params samples n e := (0, e);
  whisper_full_n_segments ctx e := 2;
  whisper_full_get_segment_text ctx i e :=
    if (0 <=? i) && (i <? 2) then None else Some "stray";
  whisper_free ctx e := e
|}.

Definition handle : Z := Eval vm_compute in Mach.jlong_of_ptr context_address.

End Stray.

(** * Facts *)

(** ** Casts between handles and pointers *)

Module MachFacts.
Import Mach.

Lemma two64_value : two64 = 18446744073709551616.
Proof. reflexivity. Qed.

Lemma ptr_of_jlong_zero : ptr_of_jlong 0 = nullptr.
Proof. reflexivity. Qed.

Lemma ptr_of_jlong_nonnull (h : Z) :
  jlong_range h -> h <> 0 -> ptr_of_jlong h <> nullptr.
Proof.
  unfold jlong_range, ptr_of_jlong, nullptr. rewrite two64_value.
  change (2 ^ 63) with 9223372036854775808.
  intros Hr Hnz Hmod.
  pose proof (Z.div_mod h 18446744073709551616 ltac:(lia)) as Hdm.
  rewrite Hmod in Hdm. lia.
Qed.

Lemma ptr_of_jlong_range (h : Z) : ptr_range (ptr_of_jlong h).
Proof.
  unfold ptr_range, ptr_of_jlong. apply Z.mod_pos_bound.
  rewrite two64_value. lia.
Qed.

Lemma jlong_of_ptr_range (p : Z) : jlong_range (jlong_of_ptr p).
Proof.
  unfold jlong_range, jlong_of_ptr.
  pose proof (Z.mod_pos_bound p two64 ltac:(rewrite two64_value; lia)) as Hb.
  revert Hb. rewrite two64_value. change (2 ^ 63) with 9223372036854775808.
  intros Hb. destruct (Z.ltb_spec (p mod 18446744073709551616)
                                  9223372036854775808); lia.
Qed.

Lemma jlong_of_ptr_zero_iff (p : Z) :
  ptr_range p -> (jlong_of_ptr p = 0 <-> p = nullptr).
Proof.
  unfold ptr_range, jlong_of_ptr, nullptr. rewrite two64_value.
  change (2 ^ 63) with 9223372036854775808. intros Hr.
  rewrite (Z.mod_small p) by lia.
  destruct (Z.ltb_spec p 9223372036854775808); lia.
Qed.

Lemma ptr_of_jlong_of_ptr (p : Z) :
  ptr_range p -> ptr_of_jlong (jlong_of_ptr p) = p.
Proof.
  unfold ptr_range, ptr_of_jlong, jlong_of_ptr. rewrite two64_value.
  change (2 ^ 63) with 9223372036854775808. intros Hr.
  rewrite (Z.mod_small p) by lia.
  destruct (Z.ltb_spec p 9223372036854775808).
  - apply Z.mod_small; lia.
  - symmetry.
    apply (Z.mod_unique (p - 18446744073709551616) 18446744073709551616 (-1) p);
      lia.
Qed.

Lemma jlong_of_ptr_of_jlong (h : Z) :
  jlong_range h -> jlong_of_ptr (ptr_of_jlong h) = h.
Proof.
  unfold jlong_range, ptr_of_jlong, jlong_of_ptr. rewrite two64_value.
  change (2 ^ 63) with 9223372036854775808. intros Hr.
  rewrite Z.mod_mod by lia.
  destruct (Z_lt_le_dec h 0) as [Hneg | Hpos].
  - assert (Hm : h mod 18446744073709551616 = h + 18446744073709551616).
    { symmetry.
      apply (Z.mod_unique h 18446744073709551616 (-1)
                          (h + 18446744073709551616)); lia. }
    rewrite Hm.
    destruct (Z.ltb_spec (h + 18446744073709551616) 9223372036854775808); lia.
  - rewrite (Z.mod_small h) by lia.
    destruct (Z.ltb_spec h 9223372036854775808); lia.
Qed.

Lemma nonnull_test (h : Z) :
  jlong_range h -> h <> 0 -> (ptr_of_jlong h =? nullptr) = false.
Proof.
  intros Hr Hnz. apply Z.eqb_neq. now apply ptr_of_jlong_nonnull.
Qed.

End MachFacts.

(** ** The two searches and [substr] against the transcript rule *)

Module TrimFacts.
Import StdString Transcript.

Lemma char_in_trim_set (c : ascii) :
  char_in c trim_set = is_ascii_whitespace c.
Proof.
  destruct c as [[] [] [] [] [] [] [] []]; reflexivity.
Qed.

Lemma size_String (c : ascii) (s : string) : size (String c s) = size s + 1.
Proof. unfold size. cbn [String.length]. lia. Qed.

Lemma size_nonneg (s : string) : 0 <= size s.
Proof. unfold size. lia. Qed.

Lemma strip_leading_size (s : string) : size (strip_leading s) <= size s.
Proof.
  induction s as [| c s IH]; cbn [strip_leading]; [lia |].
  destruct (is_ascii_whitespace c); [rewrite size_String |]; lia.
Qed.

Lemma strip_trailing_size (s : string) : size (strip_trailing s) <= size s.
Proof.
  induction s as [| c s IH]; cbn [strip_trailing]; [lia |].
  destruct (strip_trailing s) as [| d t].
  - destruct (is_ascii_whitespace c); rewrite !size_String;
      pose proof (size_nonneg s); cbn; lia.
  - rewrite !size_String in *. lia.
Qed.

Lemma strip_leading_empty (s : string) :
  strip_leading s = EmptyString <-> all_whitespace s = true.
Proof.
  induction s as [| c s IH]; cbn; [tauto |].
  destruct (is_ascii_whitespace c); cbn; [exact IH |].
  split; discriminate.
Qed.

Lemma strip_trailing_empty (s : string) :
  strip_trailing s = EmptyString <-> all_whitespace s = true.
Proof.
  induction s as [| c s IH]; cbn; [tauto |].
  destruct (strip_trailing s) as [| d t].
  - destruct (is_ascii_whitespace c); cbn.
    + split; intros _; [now apply IH | reflexivity].
    + split; discriminate.
  - split; [discriminate |].
    intros H. apply andb_true_iff in H as [_ H].
    apply IH in H. discriminate.
Qed.

Lemma first_not_of_from_spec (text : string) (pos : Z) :
  first_not_of_from text trim_set pos =
  match strip_leading text with
  | EmptyString => None
  | _ => Some (pos + (size text - size (strip_leading text)))
  end.
Proof.
  revert pos. induction text as [| c rest IH]; intros pos; [reflexivity |].
  cbn [first_not_of_from strip_leading]. rewrite char_in_trim_set.
  destruct (is_ascii_whitespace c).
  - rewrite IH. destruct (strip_leading rest); [reflexivity |].
    rewrite (size_String c rest). f_equal. lia.
  - f_equal. lia.
Qed.

Lemma last_not_of_from_spec (text : string) (pos : Z) :
  last_not_of_from text trim_set pos =
  match strip_trailing text with
  | EmptyString => None
  | t => Some (pos + size t - 1)
  end.
Proof.
  revert pos. induction text as [| c rest IH]; intros pos; [reflexivity |].
  cbn [last_not_of_from strip_trailing]. rewrite IH, char_in_trim_set.
  destruct (strip_trailing rest) as [| d t].
  - destruct (is_ascii_whitespace c); [reflexivity |].
    f_equal. cbn. lia.
  - f_equal. rewrite (size_String c (String d t)). lia.
Qed.

Lemma strip_leading_length (s : string) :
  (String.length (strip_leading s) <= String.length s)%nat.
Proof. pose proof (strip_leading_size s). unfold size in *. lia. Qed.

Lemma substring_strip_leading (s : string) (m : nat) :
  substring (leading s) m s = substring 0 m (strip_leading s).
Proof.
  unfold leading. induction s as [| c s IH]; [reflexivity |].
  cbn [strip_leading]. destruct (is_ascii_whitespace c).
  - pose proof (strip_leading_length s).
    replace (String.length (String c s) - String.length (strip_leading s))%nat
      with (S (String.length s - String.length (strip_leading s)))
      by (cbn [String.length]; lia).
    cbn [substring]. exact IH.
  - now rewrite Nat.sub_diag.
Qed.

Lemma substring_strip_trailing (s : string) :
  substring 0 (String.length (strip_trailing s)) s = strip_trailing s.
Proof.
  induction s as [| c s IH]; [reflexivity |].
  cbn [strip_trailing]. destruct (strip_trailing s) as [| d t].
  - destruct (is_ascii_whitespace c); cbn; [reflexivity |].
    now destruct s.
  - cbn [String.length substring] in *. now rewrite IH.
Qed.

Lemma strip_trailing_length (s : string) :
  strip_leading s <> EmptyString ->
  String.length (strip_trailing s) =
  (leading s + String.length (strip_trailing (strip_leading s)))%nat.
Proof.
  unfold leading. induction s as [| c s IH]; [now intros [] |].
  cbn [strip_leading]. destruct (is_ascii_whitespace c) eqn:Hc.
  - intros Hne. specialize (IH Hne).
    pose proof (strip_leading_length s).
    cbn [strip_trailing]. destruct (strip_trailing s) as [| d t] eqn:Ht.
    + exfalso. apply Hne. apply strip_leading_empty.
      now apply strip_trailing_empty.
    + cbn [String.length] in *. lia.
  - intros _. rewrite Nat.sub_diag. reflexivity.
Qed.

(** Lines 74-81 implement the transcript rule, and [substr] does not throw,
    for every string a [std::string] can hold. *)
Lemma trim_text_trimmed (text : string) :
  size text < npos -> trim_text text = Returned (trimmed text).
Proof.
  intros Hsize. unfold trim_text, find_first_not_of, find_last_not_of, trimmed.
  rewrite first_not_of_from_spec, last_not_of_from_spec.
  destruct (strip_leading text) as [| c rest] eqn:Hlead.
  { cbn. reflexivity. }
  assert (Hne : strip_leading text <> EmptyString) by (rewrite Hlead; discriminate).
  pose proof (strip_trailing_length text Hne) as Hlen.
  pose proof (substring_strip_leading text
                (String.length (strip_trailing (strip_leading text)))) as Hsub.
  rewrite substring_strip_trailing in Hsub.
  pose proof (strip_leading_length text) as Hle.
  pose proof (strip_trailing_size (strip_leading text)) as Hle'.
  rewrite Hlead in Hlen, Hsub, Hle, Hle'. unfold leading in *.
  rewrite Hlead in Hlen, Hsub.
  destruct (strip_trailing text) as [| d t] eqn:Htrail.
  { cbn [String.length] in Hlen.
    assert (strip_leading text = EmptyString).
    { apply strip_leading_empty. now apply strip_trailing_empty. }
    contradiction. }
  cbn [index_or_npos].
  set (k := size text - size (String c rest)) in *.
  set (m := size (strip_trailing (String c rest))) in *.
  assert (Hk : k = Z.of_nat (String.length text - String.length (String c rest)))
    by (unfold k, size; lia).
  assert (Hm : size (String d t) = k + m) by (unfold m, size; rewrite Hk; lia).
  assert (Hkpos : 0 <= k) by lia.
  assert (Hmpos : 0 <= m) by apply size_nonneg.
  assert (Hkm : k + m <= size text) by (unfold k, m, size in *; lia).
  replace (0 + k =? npos) with false by (symmetry; apply Z.eqb_neq; lia).
  cbn [negb]. unfold substr.
  replace (size text <? 0 + k) with false by (symmetry; apply Z.ltb_ge; lia).
  replace (0 + size (String d t) - 1 - (0 + k) + 1) with m by lia.
  unfold Mach.size_t_wrap. rewrite Z.mod_small
    by (revert Hsize; unfold npos; rewrite MachFacts.two64_value; lia).
  rewrite Z.min_l by lia.
  replace (Z.to_nat (0 + k))
    with (String.length text - String.length (String c rest))%nat by lia.
  replace (Z.to_nat m)
    with (String.length (strip_trailing (String c rest)))
    by (unfold m, size; lia).
  now rewrite Hsub.
Qed.

End TrimFacts.

(** ** The transcript rule is the trimming it is meant to be *)

Module TranscriptFacts.
Import StdString Transcript.

Lemma trimmed_all_whitespace (s : string) :
  all_whitespace s = true -> trimmed s = EmptyString.
Proof.
  intros H. unfold trimmed.
  apply TrimFacts.strip_leading_empty in H. now rewrite H.
Qed.

Lemma strip_leading_split (s : string) :
  exists l, all_whitespace l = true /\ s = (l ++ strip_leading s)%string.
Proof.
  induction s as [| c s [l [Hl Hs]]].
  - exists EmptyString. now split.
  - cbn [strip_leading]. destruct (is_ascii_whitespace c) eqn:Hc.
    + exists (String c l). split; [cbn; now rewrite Hc |].
      cbn. now rewrite <- Hs.
    + exists EmptyString. now split.
Qed.

Lemma strip_trailing_split (s : string) :
  exists r, all_whitespace r = true /\ s = (strip_trailing s ++ r)%string.
Proof.
  induction s as [| c s [r [Hr Hs]]].
  - exists EmptyString. now split.
  - cbn [strip_trailing]. destruct (strip_trailing s) as [| d t] eqn:Ht.
    + destruct (is_ascii_whitespace c) eqn:Hc.
      * exists (String c s). split; [| reflexivity].
        cbn. rewrite Hc. now apply TrimFacts.strip_trailing_empty.
      * exists r. split; [exact Hr |]. cbn in *. now rewrite <- Hs.
    + exists r. split; [exact Hr |]. cbn in *. now rewrite <- Hs.
Qed.

(** Only the outer edges go: the input is whitespace, the trimmed text,
    whitespace. *)
Lemma trimmed_split (s : string) :
  exists l r, all_whitespace l = true /\ all_whitespace r = true /\
              s = (l ++ trimmed s ++ r)%string.
Proof.
  destruct (strip_leading_split s) as [l [Hl Hs]].
  destruct (strip_trailing_split (strip_leading s)) as [r [Hr Ht]].
  exists l, r. repeat split; try assumption.
  unfold trimmed. now rewrite <- Ht.
Qed.

Lemma strip_leading_start (s : string) :
  starts_with_whitespace (strip_leading s) = false.
Proof.
  induction s as [| c s IH]; [reflexivity |].
  cbn [strip_leading]. destruct (is_ascii_whitespace c) eqn:Hc; [exact IH |].
  exact Hc.
Qed.

Lemma strip_trailing_start (s : string) :
  starts_with_whitespace s = false ->
  starts_with_whitespace (strip_trailing s) = false.
Proof.
  destruct s as [| c s]; [reflexivity |].
  cbn [strip_trailing starts_with_whitespace]. intros Hc.
  destruct (strip_trailing s); [rewrite Hc |]; exact Hc.
Qed.

Lemma strip_trailing_end (s : string) :
  ends_with_whitespace (strip_trailing s) = false.
Proof.
  induction s as [| c s IH]; [reflexivity |].
  cbn [strip_trailing]. destruct (strip_trailing s) as [| d t].
  - destruct (is_ascii_whitespace c) eqn:Hc; [reflexivity | exact Hc].
  - exact IH.
Qed.

(** Nothing is left to trim at either edge. *)
Lemma trimmed_edges (s : string) :
  starts_with_whitespace (trimmed s) = false /\
  ends_with_whitespace (trimmed s) = false.
Proof.
  unfold trimmed. split.
  - apply strip_trailing_start, strip_leading_start.
  - apply strip_trailing_end.
Qed.

(** *** NUL-free strings *)

Lemma c_chars_no_nul (s : string) : no_nul (c_chars s) = true.
Proof.
  induction s as [| c s IH]; [reflexivity |].
  cbn [c_chars]. destruct (Ascii.eqb c zero) eqn:Hc; [reflexivity |].
  cbn [no_nul]. now rewrite Hc.
Qed.

Lemma c_chars_id (s : string) : no_nul s = true -> c_chars s = s.
Proof.
  induction s as [| c s IH]; [reflexivity |].
  cbn [no_nul c_chars]. intros H. apply andb_true_iff in H as [Hc Hs].
  apply negb_true_iff in Hc. rewrite Hc. now rewrite IH.
Qed.

Lemma no_nul_append (a b : string) :
  no_nul (a ++ b)%string = no_nul a && no_nul b.
Proof.
  induction a as [| c a IH]; [reflexivity |].
  cbn. rewrite IH. now rewrite andb_assoc.
Qed.

Lemma no_nul_concatenation (l : list string) :
  Forall (fun s => no_nul s = true) l -> no_nul (concatenation l) = true.
Proof.
  induction 1 as [| s l Hs _ IH]; [reflexivity |].
  cbn [concatenation]. rewrite no_nul_append. now rewrite Hs, IH.
Qed.

Lemma no_nul_strip_leading (s : string) :
  no_nul s = true -> no_nul (strip_leading s) = true.
Proof.
  induction s as [| c s IH]; [reflexivity |].
  cbn [strip_leading]. destruct (is_ascii_whitespace c); [| tauto].
  cbn [no_nul]. intros H. apply andb_true_iff in H as [_ H]. auto.
Qed.

Lemma no_nul_strip_trailing (s : string) :
  no_nul s = true -> no_nul (strip_trailing s) = true.
Proof.
  induction s as [| c s IH]; [reflexivity |].
  cbn [no_nul strip_trailing]. intros H. apply andb_true_iff in H as [Hc Hs].
  specialize (IH Hs). destruct (strip_trailing s) as [| d t].
  - destruct (is_ascii_whitespace c); [reflexivity |].
    cbn [no_nul]. now rewrite Hc.
  - cbn [no_nul] in *. now rewrite Hc, IH.
Qed.

Lemma no_nul_trimmed (s : string) :
  no_nul s = true -> no_nul (trimmed s) = true.
Proof.
  intros H. unfold trimmed.
  now apply no_nul_strip_trailing, no_nul_strip_leading.
Qed.

End TranscriptFacts.

(** ** Running the entry points *)

Section BridgeFacts.
Context {W : WhisperEngine}.
Import StdString Transcript.

Lemma append_assoc (a b c : string) :
  ((a ++ b) ++ c)%string = (a ++ (b ++ c))%string.
Proof.
  induction a as [| x a IH]; [reflexivity |]. cbn. now rewrite IH.
Qed.

Lemma append_empty_r (a : string) : (a ++ EmptyString)%string = a.
Proof.
  induction a as [| x a IH]; [reflexivity |]. cbn. now rewrite IH.
Qed.

Lemma concatenation_app (l1 l2 : list string) :
  concatenation (l1 ++ l2) = (concatenation l1 ++ concatenation l2)%string.
Proof.
  induction l1 as [| s l1 IH]; [reflexivity |].
  cbn [concatenation app]. now rewrite IH, append_assoc.
Qed.

(** The loop of lines 67-72 visits the indices [i, i+1, ...] below
    [nSegments], appends the text of each segment that has one, and leaves
    the engine as it was. *)
Lemma segments_loop_run (ctx nSegments : Z) (rounds : nat) :
  forall (i : Z) (text : string) (e : engine_state),
    rounds = Z.to_nat (nSegments - i) ->
    segments_loop ctx nSegments rounds i text e =
    (Returned (text ++ concatenation
                         (flat_map (segment_text ctx e) (indices i rounds)))%string,
     e,
     map (whisper_full_get_segment_text_ev ctx) (indices i rounds)).
Proof.
  induction rounds as [| rounds IH]; intros i text e Hrounds.
  - cbn. now rewrite append_empty_r.
  - cbn [segments_loop].
    replace (i <? nSegments) with true by (symmetry; apply Z.ltb_lt; lia).
    unfold bind at 1. unfold call_whisper_full_get_segment_text at 1.
    cbn [indices flat_map map].
    rewrite IH by lia. rewrite concatenation_app.
    unfold segment_text at 2.
    destruct (whisper_full_get_segment_text ctx i e) as [s |].
    + unfold append_c. cbn [concatenation]. rewrite append_empty_r.
      now rewrite append_assoc.
    + reflexivity.
Qed.

Lemma segments_loop_from_zero (ctx : Z) (e : engine_state) :
  segments_loop ctx (whisper_full_n_segments ctx e)
                (Z.to_nat (whisper_full_n_segments ctx e)) 0 EmptyString e =
  (Returned (concatenation (reported_segment_texts ctx e)), e,
   map (whisper_full_get_segment_text_ev ctx)
       (indices 0 (Z.to_nat (whisper_full_n_segments ctx e)))).
Proof.
  rewrite segments_loop_run by (f_equal; lia). reflexivity.
Qed.

(** It is the test [i < nSegments] that ends the loop: rounds beyond
    [nSegments - i] are never used. *)
Lemma segments_loop_spare_rounds (ctx nSegments : Z) (spare : nat) :
  forall (rounds : nat) (i : Z) (text : string) (e : engine_state),
    rounds = Z.to_nat (nSegments - i) ->
    segments_loop ctx nSegments (rounds + spare) i text e =
    segments_loop ctx nSegments rounds i text e.
Proof.
  induction rounds as [| rounds IH]; intros i text e Hrounds.
  - destruct spare as [| spare]; [reflexivity |].
    cbn [Nat.add segments_loop].
    now replace (i <? nSegments) with false by (symmetry; apply Z.ltb_ge; lia).
  - cbn [Nat.add segments_loop].
    replace (i <? nSegments) with true by (symmetry; apply Z.ltb_lt; lia).
    unfold bind, call_whisper_full_get_segment_text.
    now rewrite IH by lia.
Qed.

(** What [transcribe] does with a context that is not null, whatever the
    engine answers. *)
Lemma transcribe_run (contextPtr : Z) (audioData : list jfloat)
    (e : engine_state) :
  let ctx := Mach.ptr_of_jlong contextPtr in
  let r := whisper_full ctx
             (pin_params (whisper_full_default_params WHISPER_SAMPLING_GREEDY))
             audioData (Z.of_nat (List.length audioData)) e in
  (ctx =? Mach.nullptr) = false ->
  Java_it_shek_dictator_app_WhisperLib_transcribe contextPtr audioData e =
  if negb (fst r =? 0) then
    (Returned EmptyString, snd r,
     inference_events ctx audioData ++
     [ android_log_print ANDROID_LOG_ERROR TAG
                         "Transcription failed with code %d" [ArgInt (fst r)];
       NewStringUTF_ev EmptyString ])
  else
    match trim_text (concatenation (reported_segment_texts ctx (snd r))) with
    | Returned text =>
        (Returned (c_chars text), snd r,
         inference_events ctx audioData ++ gathering_events ctx (snd r) ++
         [ android_log_print ANDROID_LOG_INFO TAG "Transcription result: %s"
                             [ArgString (c_chars text)];
           NewStringUTF_ev (c_chars text) ])
    | Thrown x =>
        (Thrown x, snd r,
         inference_events ctx audioData ++ gathering_events ctx (snd r))
    end.
Proof.
  intros ctx r Hctx.
  unfold Java_it_shek_dictator_app_WhisperLib_transcribe.
  fold ctx. rewrite Hctx.
  unfold bind at 1. unfold GetArrayLength at 1. cbn [bind emit ret app].
  unfold bind at 1. unfold GetFloatArrayElements at 1. cbn [bind emit ret app].
  unfold bind at 1. unfold LOGI at 1. cbn [emit app map read_arg].
  unfold bind at 1. unfold call_whisper_full_default_params at 1.
  cbn [bind emit ret app].
  unfold bind at 1. unfold call_whisper_full at 1. fold r.
  destruct r as [status e1] eqn:Hr. cbn [fst snd].
  unfold bind at 1. unfold ReleaseFloatArrayElements at 1. cbn [emit app].
  destruct (negb (status =? 0)).
  - reflexivity.
  - unfold bind at 1. unfold call_whisper_full_n_segments at 1.
    unfold bind at 1. rewrite segments_loop_from_zero.
    unfold bind at 1. unfold lift_outcome at 1.
    destruct (trim_text _) as [text | x];
      [unfold bind at 1; unfold LOGI at 1 | rewrite app_nil_r]; reflexivity.
Qed.

(** What [initContext] does, whatever the engine answers. *)
Lemma initContext_run (modelPath : string) (e : engine_state) :
  let r := whisper_init_from_file_with_params
             modelPath whisper_context_default_params e in
  Java_it_shek_dictator_app_WhisperLib_initContext modelPath e =
  if fst r =? Mach.nullptr then
    (Returned 0, snd r,
     loading_events modelPath ++
     [android_log_print ANDROID_LOG_ERROR TAG "Failed to load model" []])
  else
    (Returned (Mach.jlong_of_ptr (fst r)), snd r,
     loading_events modelPath ++
     [android_log_print ANDROID_LOG_INFO TAG "Model loaded successfully" []]).
Proof.
  intros r.
  unfold Java_it_shek_dictator_app_WhisperLib_initContext.
  unfold bind at 1. unfold GetStringUTFChars at 1. cbn [bind emit ret app].
  unfold bind at 1. unfold LOGI at 1. cbn [emit app map read_arg].
  unfold bind at 1. unfold call_whisper_context_default_params at 1.
  cbn [bind emit ret app].
  unfold bind at 1. unfold call_whisper_init_from_file_with_params at 1.
  fold r. destruct r as [ctx e1]. cbn [fst snd].
  unfold bind at 1. unfold ReleaseStringUTFChars at 1. cbn [emit app].
  destruct (ctx =? Mach.nullptr); reflexivity.
Qed.

(** What [freeContext] does. *)
Lemma freeContext_run (contextPtr : Z) (e : engine_state) :
  let ctx := Mach.ptr_of_jlong contextPtr in
  Java_it_shek_dictator_app_WhisperLib_freeContext contextPtr e =
  if ctx =? Mach.nullptr then (Returned tt, e, [])
  else (Returned tt, whisper_free ctx e,
        [whisper_free_ev ctx;
         android_log_print ANDROID_LOG_INFO TAG "Context freed" []]).
Proof.
  intros ctx. unfold Java_it_shek_dictator_app_WhisperLib_freeContext.
  fold ctx. destruct (ctx =? Mach.nullptr); reflexivity.
Qed.

End BridgeFacts.

(** ** Counting events *)

Section TraceFacts.
Context {W : WhisperEngine}.

Lemma count_app (f : Event -> bool) (a b : list Event) :
  count f (a ++ b) = (count f a + count f b)%nat.
Proof. unfold count. now rewrite filter_app, length_app. Qed.

Lemma count_none (f : Event -> bool) (l : list Event) :
  Forall (fun ev => f ev = false) l -> count f l = 0%nat.
Proof.
  unfold count. induction 1 as [| ev l Hev _ IH]; [reflexivity |].
  cbn [filter]. now rewrite Hev.
Qed.

Lemma full_calls_app (a b : list Event) :
  full_calls (a ++ b) = full_calls a ++ full_calls b.
Proof.
  induction a as [| ev a IH]; [reflexivity |].
  destruct ev; cbn [app full_calls]; try exact IH. now rewrite IH.
Qed.

Lemma full_calls_none (l : list Event) :
  Forall (fun ev => touches_audio ev = false) l -> full_calls l = [].
Proof.
  induction 1 as [| ev l Hev _ IH]; [reflexivity |].
  destruct ev; cbn [full_calls]; try exact IH. discriminate.
Qed.

Lemma untouched_not_released (l : list Event) :
  Forall (fun ev => touches_audio ev = false) l ->
  Forall (fun ev => is_audio_release ev = false) l.
Proof.
  apply Forall_impl. intros ev. now destruct ev.
Qed.

Lemma untouched_not_acquired (l : list Event) :
  Forall (fun ev => touches_audio ev = false) l ->
  Forall (fun ev => is_audio_acquire ev = false) l.
Proof.
  apply Forall_impl. intros ev. now destruct ev.
Qed.

Lemma gathering_untouched (ctx : Z) (e : engine_state) :
  Forall (fun ev => touches_audio ev = false) (gathering_events ctx e).
Proof.
  unfold gathering_events. constructor; [reflexivity |].
  apply Forall_map, Forall_forall. reflexivity.
Qed.

(** After the release of the audio array, [transcribe] emits nothing that
    carries the array, whichever way it ends. *)
Lemma transcribe_tail (contextPtr : Z) (audioData : list jfloat)
    (e : engine_state) :
  (Mach.ptr_of_jlong contextPtr =? Mach.nullptr) = false ->
  exists post,
    events_of (Java_it_shek_dictator_app_WhisperLib_transcribe
                 contextPtr audioData e)
    = inference_events (Mach.ptr_of_jlong contextPtr) audioData ++ post /\
    Forall (fun ev => touches_audio ev = false) post.
Proof.
  intros Hctx. rewrite (transcribe_run contextPtr audioData e Hctx).
  cbv zeta. destruct (negb _).
  - eexists. split; [reflexivity |]. repeat constructor.
  - destruct (trim_text _) as [text | x].
    + eexists. split; [reflexivity |].
      apply Forall_app. split; [apply gathering_untouched |].
      repeat constructor.
    + eexists. split; [reflexivity |]. apply gathering_untouched.
Qed.

Lemma indices_bounds (k : nat) :
  forall (a i : Z), In i (indices a k) -> a <= i < a + Z.of_nat k.
Proof.
  induction k as [| k IH]; intros a i Hin; [contradiction |].
  cbn [indices] in Hin. destruct Hin as [<- | Hin]; [lia |].
  apply IH in Hin. lia.
Qed.

Lemma reported_index_bounds (n i : Z) :
  In i (indices 0 (Z.to_nat n)) -> 0 <= i < n.
Proof.
  intros Hin. apply indices_bounds in Hin. lia.
Qed.

Lemma flat_map_ext_in {A B} (f g : A -> list B) (l : list A) :
  (forall a, In a l -> f a = g a) -> flat_map f l = flat_map g l.
Proof.
  induction l as [| a l IH]; intros Hfg; [reflexivity |].
  cbn [flat_map]. rewrite (Hfg a (or_introl eq_refl)).
  rewrite IH; [reflexivity |]. intros b Hb. apply Hfg. now right.
Qed.

Lemma flat_map_nil_in {A B} (f : A -> list B) (l : list A) :
  (forall a, In a l -> f a = []) -> flat_map f l = [].
Proof.
  intros Hf. rewrite (flat_map_ext_in f (fun _ => []) l Hf).
  clear Hf. induction l as [| a l IH]; [reflexivity | exact IH].
Qed.

(** [transcribe] looks at the engine through the answers to its one
    inference and at nothing else: from two states on which these answers
    agree it returns the same and emits the same. *)
Lemma transcribe_same_answers (contextPtr : Z) (audioData : list jfloat)
    (e1 e2 : engine_state) :
  let ctx := Mach.ptr_of_jlong contextPtr in
  (ctx <> Mach.nullptr ->
   same_inference_answers
     ctx (pin_params (whisper_full_default_params WHISPER_SAMPLING_GREEDY))
     audioData (Z.of_nat (List.length audioData)) e1 e2) ->
  outcome_of (Java_it_shek_dictator_app_WhisperLib_transcribe
                contextPtr audioData e1)
  = outcome_of (Java_it_shek_dictator_app_WhisperLib_transcribe
                  contextPtr audioData e2) /\
  events_of (Java_it_shek_dictator_app_WhisperLib_transcribe
               contextPtr audioData e1)
  = events_of (Java_it_shek_dictator_app_WhisperLib_transcribe
                 contextPtr audioData e2).
Proof.
  intros ctx Hsame.
  destruct (Z.eqb_spec ctx Mach.nullptr) as [Hnull | Hctx].
  - unfold Java_it_shek_dictator_app_WhisperLib_transcribe.
    fold ctx. rewrite Hnull. split; reflexivity.
  - destruct (Hsame Hctx) as [Hstatus Hsegments].
    apply Z.eqb_neq in Hctx.
    rewrite (transcribe_run contextPtr audioData e1 Hctx),
            (transcribe_run contextPtr audioData e2 Hctx).
    cbv zeta. fold ctx. rewrite <- Hstatus.
    destruct (Z.eqb_spec
                (fst (whisper_full ctx
                        (pin_params (whisper_full_default_params
                                       WHISPER_SAMPLING_GREEDY))
                        audioData (Z.of_nat (List.length audioData)) e1)) 0)
      as [Hzero | Hfail]; cbn [negb]; [| split; reflexivity].
    destruct (Hsegments Hzero) as [Hcount Htext].
    assert (Htexts :
              reported_segment_texts ctx
                (snd (whisper_full ctx
                        (pin_params (whisper_full_default_params
                                       WHISPER_SAMPLING_GREEDY))
                        audioData (Z.of_nat (List.length audioData)) e1))
              = reported_segment_texts ctx
                  (snd (whisper_full ctx
                          (pin_params (whisper_full_default_params
                                         WHISPER_SAMPLING_GREEDY))
                          audioData (Z.of_nat (List.length audioData)) e2))).
    { unfold reported_segment_texts. rewrite <- Hcount.
      apply flat_map_ext_in. intros i Hin. unfold segment_text.
      now rewrite (Htext i (reported_index_bounds _ i Hin)). }
    unfold gathering_events. rewrite <- Htexts, <- Hcount.
    destruct (trim_text _); split; reflexivity.
Qed.

End TraceFacts.

(** * The claims *)

Section Claims.
Context {W : WhisperEngine}.
Import StdString Transcript.

(** C1.  With the zero handle [transcribe] returns the empty string at once:
    the only thing it does is build that string, so no engine function is
    called and the engine is left as it was; this holds for every audio
    array, the empty one included. *)
Theorem transcribe_zero_handle (audioData : list jfloat) (e : engine_state) :
  Java_it_shek_dictator_app_WhisperLib_transcribe 0 audioData e
  = (Returned EmptyString, e, [NewStringUTF_ev EmptyString]) /\
  Forall (fun ev => is_engine_call ev = false)
         (events_of (Java_it_shek_dictator_app_WhisperLib_transcribe
                       0 audioData e)) /\
  Java_it_shek_dictator_app_WhisperLib_transcribe 0 [] e
  = (Returned EmptyString, e, [NewStringUTF_ev EmptyString]).
Proof.
  repeat split. repeat constructor.
Qed.

(** C2.  A successful [transcribe] (non-zero handle, engine status 0)
    returns the texts of the reported segments that have a text pointer,
    concatenated in order with no separator and trimmed of ASCII whitespace
    at the two outer edges, which is the empty string when only whitespace
    is left; the segments [" foo"] and ["bar "] give ["foobar"].  The
    concatenation is a [std::string], hence shorter than [npos]. *)
Theorem transcribe_success_text (contextPtr : Z) (audioData : list jfloat)
    (e : engine_state) :
  let ctx := Mach.ptr_of_jlong contextPtr in
  let r := whisper_full ctx
             (pin_params (whisper_full_default_params WHISPER_SAMPLING_GREEDY))
             audioData (Z.of_nat (List.length audioData)) e in
  let texts := reported_segment_texts ctx (snd r) in
  Mach.jlong_range contextPtr ->
  contextPtr <> 0 ->
  fst r = 0 ->
  size (concatenation texts) < npos ->
  outcome_of (Java_it_shek_dictator_app_WhisperLib_transcribe
                contextPtr audioData e)
  = Returned (trimmed (concatenation texts)) /\
  (all_whitespace (concatenation texts) = true ->
   outcome_of (Java_it_shek_dictator_app_WhisperLib_transcribe
                 contextPtr audioData e)
   = Returned EmptyString) /\
  (texts = [" foo"; "bar "]%string ->
   outcome_of (Java_it_shek_dictator_app_WhisperLib_transcribe
                 contextPtr audioData e)
   = Returned "foobar"%string).
Proof.
  intros ctx r texts Hrange Hnz Hstatus Hsize.
  assert (Hrun : outcome_of (Java_it_shek_dictator_app_WhisperLib_transcribe
                               contextPtr audioData e)
                 = Returned (trimmed (concatenation texts))).
  { rewrite (transcribe_run contextPtr audioData e
               (MachFacts.nonnull_test contextPtr Hrange Hnz)).
    cbv zeta. fold ctx. fold r. rewrite Hstatus. cbn [Z.eqb negb].
    fold texts. rewrite (TrimFacts.trim_text_trimmed _ Hsize).
    unfold outcome_of. cbn [fst]. f_equal.
    apply TranscriptFacts.c_chars_id, TranscriptFacts.no_nul_trimmed.
    apply TranscriptFacts.no_nul_concatenation.
    unfold texts, reported_segment_texts.
    apply Forall_flat_map, Forall_forall. intros i _.
    unfold segment_text.
    destruct (whisper_full_get_segment_text ctx i (snd r));
      repeat constructor.
    apply TranscriptFacts.c_chars_no_nul. }
  split; [exact Hrun |]. split.
  - intros Hws. rewrite Hrun.
    now rewrite (TranscriptFacts.trimmed_all_whitespace _ Hws).
  - intros Htexts. rewrite Hrun, Htexts. reflexivity.
Qed.

(** C3.  When the engine's inference returns a non-zero status to a
    [transcribe] with a non-zero handle, the call returns exactly the empty
    string: the code goes to the error log and nowhere else, no segment is
    read, nothing is thrown. *)
Theorem transcribe_engine_failure (contextPtr : Z) (audioData : list jfloat)
    (e : engine_state) :
  let ctx := Mach.ptr_of_jlong contextPtr in
  let r := whisper_full ctx
             (pin_params (whisper_full_default_params WHISPER_SAMPLING_GREEDY))
             audioData (Z.of_nat (List.length audioData)) e in
  Mach.jlong_range contextPtr ->
  contextPtr <> 0 ->
  fst r <> 0 ->
  Java_it_shek_dictator_app_WhisperLib_transcribe contextPtr audioData e
  = (Returned EmptyString, snd r,
     inference_events ctx audioData ++
     [ android_log_print ANDROID_LOG_ERROR TAG
                         "Transcription failed with code %d" [ArgInt (fst r)];
       NewStringUTF_ev EmptyString ]).
Proof.
  intros ctx r Hrange Hnz Hstatus.
  rewrite (transcribe_run contextPtr audioData e
             (MachFacts.nonnull_test contextPtr Hrange Hnz)).
  cbv zeta. fold ctx. fold r.
  apply Z.eqb_neq in Hstatus. now rewrite Hstatus.
Qed.

(** C4.  [initContext] returns a value, never an exception: a non-zero
    handle exactly when the engine's constructor gives a context, and that
    handle casts back to the context; the zero sentinel exactly when the
    constructor gives [nullptr]. *)
Theorem initContext_handle (modelPath : string) (e : engine_state) :
  let r := whisper_init_from_file_with_params
             modelPath whisper_context_default_params e in
  Mach.ptr_range (fst r) ->
  exists handle : Z,
    outcome_of (Java_it_shek_dictator_app_WhisperLib_initContext modelPath e)
    = Returned handle /\
    state_of (Java_it_shek_dictator_app_WhisperLib_initContext modelPath e)
    = snd r /\
    (handle <> 0 <-> fst r <> Mach.nullptr) /\
    (handle = 0 <-> fst r = Mach.nullptr) /\
    Mach.ptr_of_jlong handle = fst r.
Proof.
  intros r Hrange. rewrite (initContext_run modelPath e). cbv zeta. fold r.
  destruct (Z.eqb_spec (fst r) Mach.nullptr) as [Hnull | Hctx].
  - exists 0. rewrite Hnull. repeat split; tauto.
  - exists (Mach.jlong_of_ptr (fst r)).
    pose proof (MachFacts.jlong_of_ptr_zero_iff (fst r) Hrange) as Hz.
    pose proof (MachFacts.ptr_of_jlong_of_ptr (fst r) Hrange) as Hback.
    repeat split; tauto.
Qed.

(** C5.  A [transcribe] that reaches the engine calls the inference entry
    point once, with the parameters the engine gives for the greedy strategy
    and nine fields overwritten: the four print flags false, translate
    false, language ["en"], 4 threads, no_context true, single_segment
    false.  The strategy field is the one the engine filled in, greedy for
    an engine that records the strategy it is asked for. *)
Theorem transcribe_pinned_params (contextPtr : Z) (audioData : list jfloat)
    (e : engine_state) :
  Mach.jlong_range contextPtr ->
  contextPtr <> 0 ->
  (forall s, strategy (whisper_full_default_params s) = s) ->
  exists params : full_params,
    full_calls (events_of (Java_it_shek_dictator_app_WhisperLib_transcribe
                             contextPtr audioData e))
    = [(Mach.ptr_of_jlong contextPtr, params, audioData,
        Z.of_nat (List.length audioData))] /\
    params = pin_params (whisper_full_default_params WHISPER_SAMPLING_GREEDY) /\
    strategy params = WHISPER_SAMPLING_GREEDY /\
    print_progress params = false /\
    print_special params = false /\
    print_timestamps params = false /\
    print_realtime params = false /\
    translate params = false /\
    language params = "en"%string /\
    n_threads params = 4 /\
    no_context params = true /\
    single_segment params = false /\
    other_fields params
    = other_fields (whisper_full_default_params WHISPER_SAMPLING_GREEDY).
Proof.
  intros Hrange Hnz Hlaw.
  destruct (transcribe_tail contextPtr audioData e
              (MachFacts.nonnull_test contextPtr Hrange Hnz))
    as [post [Hevents Hpost]].
  eexists. split.
  - rewrite Hevents, full_calls_app, (full_calls_none post Hpost).
    reflexivity.
  - split; [reflexivity |]. split; [apply Hlaw |].
    repeat split.
Qed.

(** C6.  [freeContext] on the zero handle does nothing: no call of the
    engine's free routine, no log line, the engine as it was.  On a non-zero
    handle it calls the free routine once, on the context the handle stands
    for, and then logs that the context is freed. *)
Theorem freeContext_contract (e : engine_state) :
  Java_it_shek_dictator_app_WhisperLib_freeContext 0 e = (Returned tt, e, []) /\
  forall contextPtr : Z,
    Mach.jlong_range contextPtr ->
    contextPtr <> 0 ->
    let ctx := Mach.ptr_of_jlong contextPtr in
    Java_it_shek_dictator_app_WhisperLib_freeContext contextPtr e
    = (Returned tt, whisper_free ctx e,
       [whisper_free_ev ctx;
        android_log_print ANDROID_LOG_INFO TAG "Context freed" []]) /\
    count is_free (events_of (Java_it_shek_dictator_app_WhisperLib_freeContext
                                contextPtr e)) = 1%nat /\
    Mach.jlong_of_ptr ctx = contextPtr.
Proof.
  split; [reflexivity |].
  intros contextPtr Hrange Hnz ctx.
  rewrite (freeContext_run contextPtr e). cbv zeta. fold ctx.
  unfold ctx. rewrite (MachFacts.nonnull_test contextPtr Hrange Hnz).
  repeat split. now apply MachFacts.jlong_of_ptr_of_jlong.
Qed.

(** C7.  A [transcribe] with a non-zero handle acquires the elements of the
    audio array once and releases them once, as the step right after the
    engine's inference call, before the status is looked at and so on the
    success path and on the failure path alike; nothing it does afterwards
    carries the array. *)
Theorem transcribe_releases_audio (contextPtr : Z) (audioData : list jfloat)
    (e : engine_state) :
  Mach.jlong_range contextPtr ->
  contextPtr <> 0 ->
  let evs := events_of (Java_it_shek_dictator_app_WhisperLib_transcribe
                          contextPtr audioData e) in
  count is_audio_acquire evs = 1%nat /\
  count is_audio_release evs = 1%nat /\
  exists pre params post,
    evs = pre ++
          whisper_full_ev (Mach.ptr_of_jlong contextPtr) params audioData
                          (Z.of_nat (List.length audioData)) ::
          ReleaseFloatArrayElements_ev audioData audioData 0 :: post /\
    In (GetFloatArrayElements_ev audioData) pre /\
    count is_audio_release pre = 0%nat /\
    Forall (fun ev => touches_audio ev = false) post.
Proof.
  intros Hrange Hnz evs.
  destruct (transcribe_tail contextPtr audioData e
              (MachFacts.nonnull_test contextPtr Hrange Hnz))
    as [post [Hevents Hpost]].
  fold evs in Hevents. rewrite Hevents. repeat split.
  - rewrite count_app,
      (count_none _ post (untouched_not_acquired post Hpost)).
    reflexivity.
  - rewrite count_app,
      (count_none _ post (untouched_not_released post Hpost)).
    reflexivity.
  - exists (firstn 4 (inference_events (Mach.ptr_of_jlong contextPtr)
                                        audioData)),
           (pin_params (whisper_full_default_params WHISPER_SAMPLING_GREEDY)),
           post.
    split; [reflexivity |]. split; [cbn; tauto |].
    split; [reflexivity | exact Hpost].
Qed.

(** C8.  Every [initContext] releases the native copy of the model path
    once: after the engine's constructor has returned and before the result
    is tested, so whether loading succeeded or failed; only a log line
    follows. *)
Theorem initContext_releases_path (modelPath : string) (e : engine_state) :
  let evs := events_of (Java_it_shek_dictator_app_WhisperLib_initContext
                          modelPath e) in
  count is_path_release evs = 1%nat /\
  exists post,
    evs = [ GetStringUTFChars_ev modelPath;
            android_log_print ANDROID_LOG_INFO TAG "Loading model from: %s"
                              [ArgString (c_chars modelPath)];
            whisper_context_default_params_ev;
            whisper_init_from_file_with_params_ev
              modelPath whisper_context_default_params;
            ReleaseStringUTFChars_ev modelPath modelPath ] ++ post /\
    Forall (fun ev => is_log ev = true) post.
Proof.
  intros evs. unfold evs. rewrite (initContext_run modelPath e). cbv zeta.
  destruct (_ =? Mach.nullptr); (split; [reflexivity |]);
    eexists; (split; [reflexivity |]); repeat constructor.
Qed.

(** C9.  A [transcribe] with a non-zero handle hands the engine the whole
    audio array and, as the sample count, the length of that array: nothing
    is cut, padded or refused for being short, and the empty array goes
    through with the count 0. *)
Theorem transcribe_sample_count (contextPtr : Z) (audioData : list jfloat)
    (e : engine_state) :
  Mach.jlong_range contextPtr ->
  contextPtr <> 0 ->
  let ctx := Mach.ptr_of_jlong contextPtr in
  let params :=
    pin_params (whisper_full_default_params WHISPER_SAMPLING_GREEDY) in
  full_calls (events_of (Java_it_shek_dictator_app_WhisperLib_transcribe
                           contextPtr audioData e))
  = [(ctx, params, audioData, Z.of_nat (List.length audioData))] /\
  state_of (Java_it_shek_dictator_app_WhisperLib_transcribe
              contextPtr audioData e)
  = snd (whisper_full ctx params audioData
                      (Z.of_nat (List.length audioData)) e) /\
  full_calls (events_of (Java_it_shek_dictator_app_WhisperLib_transcribe
                           contextPtr [] e))
  = [(ctx, params, [], 0)].
Proof.
  intros Hrange Hnz ctx params.
  pose proof (MachFacts.nonnull_test contextPtr Hrange Hnz) as Hctx.
  assert (Hcalls : forall a,
             full_calls (events_of
                           (Java_it_shek_dictator_app_WhisperLib_transcribe
                              contextPtr a e))
             = [(ctx, params, a, Z.of_nat (List.length a))]).
  { intros a.
    destruct (transcribe_tail contextPtr a e Hctx) as [post [Hevents Hpost]].
    rewrite Hevents, full_calls_app, (full_calls_none post Hpost).
    reflexivity. }
  split; [apply Hcalls |]. split; [| apply (Hcalls [])].
  rewrite (transcribe_run contextPtr audioData e Hctx). cbv zeta.
  destruct (negb _); [reflexivity |].
  destruct (trim_text _); reflexivity.
Qed.

(** C10.  Every operation of the bridge is a function of its arguments and
    of what the engine answers; the bridge has no state of its own that could
    make two calls differ.  Two [transcribe] calls with the same handle and
    the same samples, started from engine states on which the engine answers
    their inference alike, return the same string and emit the same events;
    this is so in particular for a call that follows another.  Two
    [initContext] calls on the same path return the same handle as soon as
    the engine's constructor returns the same context, and what
    [freeContext] returns and emits depends on the handle alone. *)
Theorem bridge_deterministic :
  (forall (contextPtr : Z) (audioData : list jfloat) (e1 e2 : engine_state),
      (Mach.ptr_of_jlong contextPtr <> Mach.nullptr ->
       same_inference_answers
         (Mach.ptr_of_jlong contextPtr)
         (pin_params (whisper_full_default_params WHISPER_SAMPLING_GREEDY))
         audioData (Z.of_nat (List.length audioData)) e1 e2) ->
      outcome_of (Java_it_shek_dictator_app_WhisperLib_transcribe
                    contextPtr audioData e1)
      = outcome_of (Java_it_shek_dictator_app_WhisperLib_transcribe
                      contextPtr audioData e2) /\
      events_of (Java_it_shek_dictator_app_WhisperLib_transcribe
                   contextPtr audioData e1)
      = events_of (Java_it_shek_dictator_app_WhisperLib_transcribe
                     contextPtr audioData e2)) /\
  (forall (contextPtr : Z) (audioData : list jfloat) (e : engine_state),
      let first := Java_it_shek_dictator_app_WhisperLib_transcribe
                     contextPtr audioData e in
      let second := Java_it_shek_dictator_app_WhisperLib_transcribe
                      contextPtr audioData (state_of first) in
      (Mach.ptr_of_jlong contextPtr <> Mach.nullptr ->
       same_inference_answers
         (Mach.ptr_of_jlong contextPtr)
         (pin_params (whisper_full_default_params WHISPER_SAMPLING_GREEDY))
         audioData (Z.of_nat (List.length audioData)) e (state_of first)) ->
      outcome_of second = outcome_of first /\
      events_of second = events_of first) /\
  (forall (modelPath : string) (e1 e2 : engine_state),
      fst (whisper_init_from_file_with_params
             modelPath whisper_context_default_params e1)
      = fst (whisper_init_from_file_with_params
               modelPath whisper_context_default_params e2) ->
      outcome_of (Java_it_shek_dictator_app_WhisperLib_initContext
                    modelPath e1)
      = outcome_of (Java_it_shek_dictator_app_WhisperLib_initContext
                      modelPath e2) /\
      events_of (Java_it_shek_dictator_app_WhisperLib_initContext modelPath e1)
      = events_of (Java_it_shek_dictator_app_WhisperLib_initContext
                     modelPath e2)) /\
  (forall (contextPtr : Z) (e1 e2 : engine_state),
      outcome_of (Java_it_shek_dictator_app_WhisperLib_freeContext
                    contextPtr e1)
      = outcome_of (Java_it_shek_dictator_app_WhisperLib_freeContext
                      contextPtr e2) /\
      events_of (Java_it_shek_dictator_app_WhisperLib_freeContext
                   contextPtr e1)
      = events_of (Java_it_shek_dictator_app_WhisperLib_freeContext
                     contextPtr e2)).
Proof.
  split; [| split; [| split]].
  - intros contextPtr audioData e1 e2 Hsame.
    now apply transcribe_same_answers.
  - intros contextPtr audioData e first second Hsame.
    destruct (transcribe_same_answers contextPtr audioData e (state_of first)
                Hsame) as [Hout Hevents].
    split; symmetry; assumption.
  - intros modelPath e1 e2 Hctx.
    rewrite (initContext_run modelPath e1), (initContext_run modelPath e2).
    cbv zeta. rewrite <- Hctx.
    destruct (_ =? Mach.nullptr); split; reflexivity.
  - intros contextPtr e1 e2.
    rewrite (freeContext_run contextPtr e1), (freeContext_run contextPtr e2).
    cbv zeta. destruct (_ =? Mach.nullptr); split; reflexivity.
Qed.

End Claims.

(** * The claims at work on the demo engine *)

Module DemoRuns.
Import Demo.

Lemma handle_in_range : Mach.jlong_range handle.
Proof. vm_compute. split; [discriminate | reflexivity]. Defined.

Lemma handle_nonzero : handle <> 0.
Proof. discriminate. Defined.

Lemma transcribe_success_text_witness :
  Mach.jlong_range handle /\ handle <> 0 /\
  outcome_of (Java_it_shek_dictator_app_WhisperLib_transcribe
                (W := engine) handle audio fresh)
  = Returned "foobar"%string.
Proof.
  split; [exact handle_in_range |]. split; [exact handle_nonzero |].
  refine (proj2 (proj2 (transcribe_success_text
                          (W := engine) handle audio fresh
                          handle_in_range handle_nonzero _ _)) _).
  - reflexivity.
  - vm_compute. reflexivity.
  - reflexivity.
Defined.

Lemma transcribe_engine_failure_witness :
  Java_it_shek_dictator_app_WhisperLib_transcribe (W := engine) handle [] fresh
  = (Returned EmptyString, [],
     inference_events (W := engine) context_address [] ++
     [ android_log_print ANDROID_LOG_ERROR TAG
                         "Transcription failed with code %d" [ArgInt (-3)];
       NewStringUTF_ev EmptyString ]).
Proof.
  refine (transcribe_engine_failure (W := engine) handle [] fresh
            handle_in_range handle_nonzero _).
  vm_compute. discriminate.
Defined.

Lemma initContext_handle_witness :
  exists h : Z,
    outcome_of (Java_it_shek_dictator_app_WhisperLib_initContext
                  (W := engine) model_file fresh)
    = Returned h /\
    h <> 0 /\ Mach.ptr_of_jlong h = context_address.
Proof.
  assert (Hrange : Mach.ptr_range context_address)
    by (vm_compute; split; [discriminate | reflexivity]).
  destruct (initContext_handle (W := engine) model_file fresh Hrange)
    as [h [Hout [_ [Hnz [_ Hback]]]]].
  exists h. split; [exact Hout |]. split; [| exact Hback].
  apply Hnz. vm_compute. discriminate.
Defined.

Lemma transcribe_pinned_params_witness :
  exists params : full_params (W := engine),
    full_calls (events_of (Java_it_shek_dictator_app_WhisperLib_transcribe
                             (W := engine) handle audio fresh))
    = [(context_address, params, audio, 3)] /\
    strategy params = WHISPER_SAMPLING_GREEDY /\
    n_threads params = 4 /\
    language params = "en"%string.
Proof.
  destruct (transcribe_pinned_params (W := engine) handle audio fresh
              handle_in_range handle_nonzero (fun s => eq_refl))
    as [params [Hcalls [_ [Hs [_ [_ [_ [_ [_ [Hl [Hn _]]]]]]]]]]].
  exists params. repeat split; assumption.
Defined.

Lemma freeContext_contract_witness :
  Java_it_shek_dictator_app_WhisperLib_freeContext
    (W := engine) handle segments
  = (Returned tt, [],
     [whisper_free_ev (W := engine) context_address;
      android_log_print ANDROID_LOG_INFO TAG "Context freed" []]).
Proof.
  exact (proj1 (proj2 (freeContext_contract (W := engine) segments)
                  handle handle_in_range handle_nonzero)).
Defined.

Lemma transcribe_releases_audio_witness :
  count is_audio_release
        (events_of (Java_it_shek_dictator_app_WhisperLib_transcribe
                      (W := engine) handle audio fresh)) = 1%nat /\
  count is_audio_release
        (events_of (Java_it_shek_dictator_app_WhisperLib_transcribe
                      (W := engine) handle [] fresh)) = 1%nat.
Proof.
  split.
  - exact (proj1 (proj2 (transcribe_releases_audio
                           (W := engine) handle audio fresh
                           handle_in_range handle_nonzero))).
  - exact (proj1 (proj2 (transcribe_releases_audio
                           (W := engine) handle [] fresh
                           handle_in_range handle_nonzero))).
Defined.

Lemma transcribe_sample_count_witness :
  full_calls (events_of (Java_it_shek_dictator_app_WhisperLib_transcribe
                           (W := engine) handle audio fresh))
  = [(context_address,
      pin_params (whisper_full_default_params (WhisperEngine := engine)
                    WHISPER_SAMPLING_GREEDY),
      audio, 3)].
Proof.
  exact (proj1 (transcribe_sample_count (W := engine) handle audio fresh
                  handle_in_range handle_nonzero)).
Defined.

Lemma bridge_deterministic_witness :
  let first := Java_it_shek_dictator_app_WhisperLib_transcribe
                 (W := Named.engine) Named.handle audio Named.tiny in
  let second := Java_it_shek_dictator_app_WhisperLib_transcribe
                  (W := Named.engine) Named.handle audio (state_of first) in
  outcome_of first = Returned "heard by tiny"%string /\
  outcome_of second = outcome_of first.
Proof.
  intros first second. split; [reflexivity |].
  refine (proj1 (proj1 (proj2 (bridge_deterministic (W := Named.engine)))
                   Named.handle audio Named.tiny _)).
  intros _. split; [reflexivity |].
  intros _. split; [reflexivity |].
  intros i _. reflexivity.
Defined.

End DemoRuns.

(** * Further properties of the bridge *)

(** ** More on the transcript rule *)

Module TranscriptMore.
Import StdString Transcript.

Lemma strip_leading_fixed (s : string) :
  starts_with_whitespace s = false -> strip_leading s = s.
Proof.
  destruct s as [| c s]; [reflexivity |].
  cbn [starts_with_whitespace strip_leading]. now intros ->.
Qed.

Lemma strip_trailing_fixed (s : string) :
  ends_with_whitespace s = false -> strip_trailing s = s.
Proof.
  induction s as [| c s IH]; [reflexivity |].
  cbn [ends_with_whitespace strip_trailing]. destruct s as [| d s'].
  - cbn [strip_trailing]. now intros ->.
  - intros Hend. now rewrite (IH Hend).
Qed.

Lemma trimmed_fixed (s : string) :
  starts_with_whitespace s = false -> ends_with_whitespace s = false ->
  trimmed s = s.
Proof.
  intros Hstart Hend. unfold trimmed.
  now rewrite (strip_leading_fixed s Hstart), (strip_trailing_fixed s Hend).
Qed.

Lemma trimmed_idempotent (s : string) : trimmed (trimmed s) = trimmed s.
Proof.
  destruct (TranscriptFacts.trimmed_edges s) as [Hstart Hend].
  now apply trimmed_fixed.
Qed.

Lemma strip_leading_whitespace_only (s : string) :
  all_whitespace (strip_leading s) = true -> strip_leading s = EmptyString.
Proof.
  induction s as [| c s IH]; [reflexivity |].
  cbn [strip_leading]. destruct (is_ascii_whitespace c) eqn:Hc; [exact IH |].
  cbn [all_whitespace]. now rewrite Hc.
Qed.

Lemma trimmed_empty_iff (s : string) :
  trimmed s = EmptyString <-> all_whitespace s = true.
Proof.
  split; [| apply TranscriptFacts.trimmed_all_whitespace].
  unfold trimmed. intros H.
  apply TrimFacts.strip_trailing_empty in H.
  now apply TrimFacts.strip_leading_empty, strip_leading_whitespace_only.
Qed.

Lemma trimmed_size (s : string) : size (trimmed s) <= size s.
Proof.
  unfold trimmed.
  pose proof (TrimFacts.strip_trailing_size (strip_leading s)).
  pose proof (TrimFacts.strip_leading_size s). lia.
Qed.

End TranscriptMore.

(** ** More on running the entry points *)

Section RunFacts.
Context {W : WhisperEngine}.
Import StdString Transcript.

Lemma bind_returned {A B} (m : M A) (k : A -> M B) (e e1 : engine_state)
    (a : A) (t1 : list Event) :
  m e = (Returned a, e1, t1) ->
  bind m k e
  = (outcome_of (k a e1), state_of (k a e1), t1 ++ events_of (k a e1)).
Proof.
  intros Hm. unfold bind. rewrite Hm.
  now destruct (k a e1) as [[r e2] t2].
Qed.

Lemma initContext_loaded (modelPath : string) (e : engine_state) :
  let r := whisper_init_from_file_with_params
             modelPath whisper_context_default_params e in
  fst r <> Mach.nullptr ->
  Java_it_shek_dictator_app_WhisperLib_initContext modelPath e
  = (Returned (Mach.jlong_of_ptr (fst r)), snd r,
     loading_events modelPath ++
     [android_log_print ANDROID_LOG_INFO TAG "Model loaded successfully" []]).
Proof.
  intros r Hctx. rewrite (initContext_run modelPath e). cbv zeta. fold r.
  apply Z.eqb_neq in Hctx. now rewrite Hctx.
Qed.

Lemma initContext_failed (modelPath : string) (e : engine_state) :
  let r := whisper_init_from_file_with_params
             modelPath whisper_context_default_params e in
  fst r = Mach.nullptr ->
  Java_it_shek_dictator_app_WhisperLib_initContext modelPath e
  = (Returned 0, snd r,
     loading_events modelPath ++
     [android_log_print ANDROID_LOG_ERROR TAG "Failed to load model" []]).
Proof.
  intros r Hctx. rewrite (initContext_run modelPath e). cbv zeta. fold r.
  now rewrite Hctx.
Qed.

(** A handle made from a context opens the guard of [transcribe] and of
    [freeContext]. *)
Lemma loaded_handle_test (ctx : Z) :
  Mach.ptr_range ctx -> ctx <> Mach.nullptr ->
  (Mach.ptr_of_jlong (Mach.jlong_of_ptr ctx) =? Mach.nullptr) = false.
Proof.
  intros Hrange Hctx. rewrite (MachFacts.ptr_of_jlong_of_ptr ctx Hrange).
  now apply Z.eqb_neq.
Qed.

Lemma transcribe_state (contextPtr : Z) (audioData : list jfloat)
    (e : engine_state) :
  let ctx := Mach.ptr_of_jlong contextPtr in
  (ctx =? Mach.nullptr) = false ->
  state_of (Java_it_shek_dictator_app_WhisperLib_transcribe
              contextPtr audioData e)
  = snd (whisper_full ctx
           (pin_params (whisper_full_default_params WHISPER_SAMPLING_GREEDY))
           audioData (Z.of_nat (List.length audioData)) e).
Proof.
  intros ctx Hctx. rewrite (transcribe_run contextPtr audioData e Hctx).
  cbv zeta. destruct (negb _); [reflexivity |].
  destruct (trim_text _); reflexivity.
Qed.

(** The two ways a [transcribe] on a live context ends, when the gathered
    text is one a [std::string] can hold. *)
Lemma transcribe_cases (contextPtr : Z) (audioData : list jfloat)
    (e : engine_state) :
  let ctx := Mach.ptr_of_jlong contextPtr in
  let r := whisper_full ctx
             (pin_params (whisper_full_default_params WHISPER_SAMPLING_GREEDY))
             audioData (Z.of_nat (List.length audioData)) e in
  let text := trimmed (concatenation (reported_segment_texts ctx (snd r))) in
  (ctx =? Mach.nullptr) = false ->
  size (concatenation (reported_segment_texts ctx (snd r))) < npos ->
  (fst r <> 0 /\
   Java_it_shek_dictator_app_WhisperLib_transcribe contextPtr audioData e
   = (Returned EmptyString, snd r,
      inference_events ctx audioData ++
      [ android_log_print ANDROID_LOG_ERROR TAG
                          "Transcription failed with code %d" [ArgInt (fst r)];
        NewStringUTF_ev EmptyString ])) \/
  (fst r = 0 /\
   Java_it_shek_dictator_app_WhisperLib_transcribe contextPtr audioData e
   = (Returned text, snd r,
      inference_events ctx audioData ++ gathering_events ctx (snd r) ++
      [ android_log_print ANDROID_LOG_INFO TAG "Transcription result: %s"
                          [ArgString text];
        NewStringUTF_ev text ])).
Proof.
  intros ctx r text Hctx Hsize.
  rewrite (transcribe_run contextPtr audioData e Hctx). cbv zeta.
  fold ctx. fold r.
  destruct (Z.eqb_spec (fst r) 0) as [Hzero | Hnonzero]; cbn [negb].
  - right. split; [exact Hzero |].
    rewrite (TrimFacts.trim_text_trimmed _ Hsize). fold text.
    assert (Hchars : c_chars text = text).
    { apply TranscriptFacts.c_chars_id, TranscriptFacts.no_nul_trimmed.
      apply TranscriptFacts.no_nul_concatenation.
      unfold reported_segment_texts.
      apply Forall_flat_map, Forall_forall. intros i _.
      unfold segment_text.
      destruct (whisper_full_get_segment_text ctx i (snd r));
        repeat constructor.
      apply TranscriptFacts.c_chars_no_nul. }
    now rewrite Hchars.
  - left. now split.
Qed.

Lemma free_calls_app (a b : list Event) :
  free_calls (a ++ b) = free_calls a ++ free_calls b.
Proof. apply flat_map_app. Qed.

Lemma segment_reads_app (a b : list Event) :
  segment_reads (a ++ b) = segment_reads a ++ segment_reads b.
Proof. apply flat_map_app. Qed.

Lemma free_calls_none (l : list Event) :
  Forall (fun ev => is_lifecycle_call ev = false) l -> free_calls l = [].
Proof.
  induction 1 as [| ev l Hev _ IH]; [reflexivity |].
  unfold free_calls in *. cbn [flat_map]. rewrite IH.
  now destruct ev.
Qed.

Lemma gathering_no_lifecycle (ctx : Z) (e : engine_state) :
  Forall (fun ev => is_lifecycle_call ev = false) (gathering_events ctx e).
Proof.
  unfold gathering_events. constructor; [reflexivity |].
  apply Forall_map, Forall_forall. reflexivity.
Qed.

Lemma gathering_no_error (ctx : Z) (e : engine_state) :
  Forall (fun ev => is_error_log ev = false) (gathering_events ctx e).
Proof.
  unfold gathering_events. constructor; [reflexivity |].
  apply Forall_map, Forall_forall. reflexivity.
Qed.

Lemma segment_reads_gathering (ctx : Z) (e : engine_state) :
  segment_reads (gathering_events ctx e)
  = map (fun i => (ctx, i))
        (indices 0 (Z.to_nat (whisper_full_n_segments ctx e))).
Proof.
  unfold gathering_events, segment_reads. cbn [flat_map app].
  induction (indices 0 (Z.to_nat (whisper_full_n_segments ctx e)))
    as [| i l IH]; [reflexivity |].
  cbn [map flat_map app]. now rewrite IH.
Qed.

(** On a live context [transcribe] neither creates nor frees a context. *)
Lemma transcribe_no_lifecycle (contextPtr : Z) (audioData : list jfloat)
    (e : engine_state) :
  Forall (fun ev => is_lifecycle_call ev = false)
         (events_of (Java_it_shek_dictator_app_WhisperLib_transcribe
                       contextPtr audioData e)).
Proof.
  destruct (Mach.ptr_of_jlong contextPtr =? Mach.nullptr) eqn:Hctx.
  - unfold Java_it_shek_dictator_app_WhisperLib_transcribe. rewrite Hctx.
    repeat constructor.
  - rewrite (transcribe_run contextPtr audioData e Hctx). cbv zeta.
    destruct (negb _); [repeat constructor |].
    destruct (trim_text _); cbn [events_of snd];
      apply Forall_app; (split; [repeat constructor |]).
    + apply Forall_app. split; [apply gathering_no_lifecycle |].
      repeat constructor.
    + apply gathering_no_lifecycle.
Qed.

End RunFacts.

(** ** Handles across calls *)

Section Lifecycle.
Context {W : WhisperEngine}.
Import StdString Transcript.

Lemma freeContext_live (contextPtr : Z) (e : engine_state) :
  let ctx := Mach.ptr_of_jlong contextPtr in
  (ctx =? Mach.nullptr) = false ->
  Java_it_shek_dictator_app_WhisperLib_freeContext contextPtr e
  = (Returned tt, whisper_free ctx e,
     [whisper_free_ev ctx;
      android_log_print ANDROID_LOG_INFO TAG "Context freed" []]).
Proof.
  intros ctx Hctx. rewrite (freeContext_run contextPtr e). cbv zeta.
  fold ctx. now rewrite Hctx.
Qed.

(** X1.  The handle that a successful [initContext] returns stands for the
    context the engine's constructor made: a [transcribe] on that handle
    runs the inference on that very context, in the state the constructor
    left, also when the address has its top bit set and the handle is
    negative. *)
Theorem load_and_transcribe_same_context (modelPath : string)
    (audioData : list jfloat) (e : engine_state) :
  let r := whisper_init_from_file_with_params
             modelPath whisper_context_default_params e in
  let params :=
    pin_params (whisper_full_default_params WHISPER_SAMPLING_GREEDY) in
  Mach.ptr_range (fst r) ->
  fst r <> Mach.nullptr ->
  full_calls (events_of (load_and_transcribe modelPath audioData e))
  = [(fst r, params, audioData, Z.of_nat (List.length audioData))] /\
  state_of (load_and_transcribe modelPath audioData e)
  = snd (whisper_full (fst r) params audioData
                      (Z.of_nat (List.length audioData)) (snd r)).
Proof.
  intros r params Hrange Hctx.
  pose proof (loaded_handle_test (fst r) Hrange Hctx) as Htest.
  pose proof (MachFacts.ptr_of_jlong_of_ptr (fst r) Hrange) as Hback.
  destruct (transcribe_tail (Mach.jlong_of_ptr (fst r)) audioData (snd r) Htest)
    as [post [Hevents Hpost]].
  pose proof (transcribe_state (Mach.jlong_of_ptr (fst r)) audioData (snd r)
                Htest) as Hstate.
  cbv zeta in Hstate. rewrite Hback in Hevents, Hstate.
  unfold load_and_transcribe.
  rewrite (bind_returned _ _ e _ _ _ (initContext_loaded modelPath e Hctx)).
  fold r. split.
  - unfold events_of at 1. cbn [snd]. rewrite Hevents.
    rewrite !full_calls_app, (full_calls_none post Hpost). reflexivity.
  - unfold state_of at 1. cbn [fst snd]. exact Hstate.
Qed.

(** X2.  When the model cannot be loaded, a whole session on the returned
    handle (transcribe, then free) gives the empty string and never reaches
    the inference or the free routine of the engine: after the failed
    constructor call the bridge only builds the empty string. *)
Theorem session_after_failed_load (modelPath : string)
    (audioData : list jfloat) (e : engine_state) :
  let r := whisper_init_from_file_with_params
             modelPath whisper_context_default_params e in
  fst r = Mach.nullptr ->
  session modelPath audioData e
  = (Returned EmptyString, snd r,
     loading_events modelPath ++
     [ android_log_print ANDROID_LOG_ERROR TAG "Failed to load model" [];
       NewStringUTF_ev EmptyString ]).
Proof.
  intros r Hctx. unfold session.
  rewrite (bind_returned _ _ e _ _ _ (initContext_failed modelPath e Hctx)).
  fold r. reflexivity.
Qed.

(** X3.  In a session on a model that loads, the context is freed once, as
    the last thing the bridge does and after the one inference that ran on
    it; the session returns what [transcribe] returned and leaves the engine
    in the state its free routine produced. *)
Theorem session_frees_loaded_context (modelPath : string)
    (audioData : list jfloat) (e : engine_state) :
  let r := whisper_init_from_file_with_params
             modelPath whisper_context_default_params e in
  let params :=
    pin_params (whisper_full_default_params WHISPER_SAMPLING_GREEDY) in
  let rf := whisper_full (fst r) params audioData
                         (Z.of_nat (List.length audioData)) (snd r) in
  Mach.ptr_range (fst r) ->
  fst r <> Mach.nullptr ->
  size (concatenation (reported_segment_texts (fst r) (snd rf))) < npos ->
  outcome_of (session modelPath audioData e)
  = outcome_of (Java_it_shek_dictator_app_WhisperLib_transcribe
                  (Mach.jlong_of_ptr (fst r)) audioData (snd r)) /\
  state_of (session modelPath audioData e) = whisper_free (fst r) (snd rf) /\
  free_calls (events_of (session modelPath audioData e)) = [fst r] /\
  full_calls (events_of (session modelPath audioData e))
  = [(fst r, params, audioData, Z.of_nat (List.length audioData))] /\
  exists pre,
    events_of (session modelPath audioData e)
    = pre ++ [ whisper_free_ev (fst r);
               android_log_print ANDROID_LOG_INFO TAG "Context freed" [] ] /\
    In (whisper_full_ev (fst r) params audioData
                        (Z.of_nat (List.length audioData))) pre.
Proof.
  intros r params rf Hrange Hctx Hsize.
  pose proof (loaded_handle_test (fst r) Hrange Hctx) as Htest.
  pose proof (MachFacts.ptr_of_jlong_of_ptr (fst r) Hrange) as Hback.
  pose proof (transcribe_cases (Mach.jlong_of_ptr (fst r)) audioData (snd r))
    as Hcases.
  pose proof (freeContext_live (Mach.jlong_of_ptr (fst r))) as Hfree.
  cbv zeta in Hcases, Hfree. rewrite Hback in Hcases, Hfree.
  specialize (Hcases (proj2 (Z.eqb_neq _ _) Hctx) Hsize).
  fold params in Hcases. fold rf in Hcases.
  assert (Hfree' : forall e', Java_it_shek_dictator_app_WhisperLib_freeContext
                                (Mach.jlong_of_ptr (fst r)) e'
                              = (Returned tt, whisper_free (fst r) e',
                                 [whisper_free_ev (fst r);
                                  android_log_print ANDROID_LOG_INFO TAG
                                                    "Context freed" []]))
    by (intros e'; apply Hfree; now apply Z.eqb_neq).
  unfold session.
  rewrite (bind_returned _ _ e _ _ _ (initContext_loaded modelPath e Hctx)).
  fold r.
  destruct Hcases as [[_ Hrun] | [_ Hrun]];
    rewrite (bind_returned _ _ _ _ _ _ Hrun), Hrun;
    rewrite (bind_returned _ _ _ _ _ _ (Hfree' (snd rf)));
    unfold outcome_of, state_of, events_of, ret; cbn [fst snd];
    (split; [reflexivity |]); (split; [reflexivity |]).
  - split; [reflexivity |]. split; [reflexivity |].
    eexists ((loading_events modelPath ++ _) ++ inference_events _ _ ++ _).
    split; [rewrite app_nil_r, app_assoc; reflexivity |].
    apply in_or_app. right. apply in_or_app. left.
    unfold inference_events. cbn. tauto.
  - rewrite !app_nil_r.
    split; [| split].
    + rewrite !free_calls_app.
      rewrite (free_calls_none _ (gathering_no_lifecycle (fst r) (snd rf))).
      reflexivity.
    + rewrite !full_calls_app.
      rewrite (full_calls_none _ (gathering_untouched (fst r) (snd rf))).
      reflexivity.
    + eexists ((loading_events modelPath ++ _) ++ inference_events _ _ ++ _).
      split; [rewrite app_assoc; reflexivity |].
      apply in_or_app. right. apply in_or_app. left.
      unfold inference_events. cbn. tauto.
Qed.

End Lifecycle.

(** ** What the null check does not catch *)

Section StaleHandles.
Context {W : WhisperEngine}.
Import StdString Transcript.

(** X4.  [freeContext] guards against the zero handle only: called twice
    with the same non-zero handle it calls the engine's free routine twice on
    the same context, the second time on what the first call left. *)
Theorem free_twice_frees_twice (contextPtr : Z) (e : engine_state) :
  Mach.jlong_range contextPtr ->
  contextPtr <> 0 ->
  let ctx := Mach.ptr_of_jlong contextPtr in
  free_twice contextPtr e
  = (Returned tt, whisper_free ctx (whisper_free ctx e),
     [ whisper_free_ev ctx;
       android_log_print ANDROID_LOG_INFO TAG "Context freed" [];
       whisper_free_ev ctx;
       android_log_print ANDROID_LOG_INFO TAG "Context freed" [] ]).
Proof.
  intros Hrange Hnz ctx.
  pose proof (MachFacts.nonnull_test contextPtr Hrange Hnz) as Htest.
  unfold free_twice.
  rewrite (bind_returned _ _ e _ _ _ (freeContext_live contextPtr e Htest)).
  rewrite (freeContext_live contextPtr _ Htest). reflexivity.
Qed.

(** X5.  [transcribe] has no way to tell a freed context: after
    [freeContext] on a non-zero handle, a [transcribe] on the same handle
    still runs the inference on that context, on the state the free routine
    left. *)
Theorem transcribe_after_free_reaches_engine (contextPtr : Z)
    (audioData : list jfloat) (e : engine_state) :
  Mach.jlong_range contextPtr ->
  contextPtr <> 0 ->
  let ctx := Mach.ptr_of_jlong contextPtr in
  let params :=
    pin_params (whisper_full_default_params WHISPER_SAMPLING_GREEDY) in
  free_calls (events_of (transcribe_after_free contextPtr audioData e))
  = [ctx] /\
  full_calls (events_of (transcribe_after_free contextPtr audioData e))
  = [(ctx, params, audioData, Z.of_nat (List.length audioData))] /\
  state_of (transcribe_after_free contextPtr audioData e)
  = snd (whisper_full ctx params audioData
                      (Z.of_nat (List.length audioData)) (whisper_free ctx e)).
Proof.
  intros Hrange Hnz ctx params.
  pose proof (MachFacts.nonnull_test contextPtr Hrange Hnz) as Htest.
  destruct (transcribe_tail contextPtr audioData (whisper_free ctx e) Htest)
    as [post [Hevents Hpost]].
  pose proof (transcribe_no_lifecycle contextPtr audioData (whisper_free ctx e))
    as Hlife.
  pose proof (transcribe_state contextPtr audioData (whisper_free ctx e) Htest)
    as Hstate.
  unfold transcribe_after_free.
  rewrite (bind_returned _ _ e _ _ _ (freeContext_live contextPtr e Htest)).
  fold ctx. repeat split.
  - unfold events_of at 1. cbn [snd].
    rewrite free_calls_app, (free_calls_none _ Hlife). reflexivity.
  - unfold events_of at 1. cbn [snd]. rewrite Hevents.
    rewrite !full_calls_app, (full_calls_none post Hpost). reflexivity.
  - unfold state_of at 1. cbn [fst snd]. exact Hstate.
Qed.

End StaleHandles.

(** ** The text that comes back *)

Section ReturnedText.
Context {W : WhisperEngine}.
Import StdString Transcript.

(** X6.  When a successful inference reports no segment, a count of zero or
    below, [transcribe] reads no segment text and returns the empty string,
    which it also logs as the result. *)
Theorem transcribe_no_segments (contextPtr : Z) (audioData : list jfloat)
    (e : engine_state) :
  let ctx := Mach.ptr_of_jlong contextPtr in
  let r := whisper_full ctx
             (pin_params (whisper_full_default_params WHISPER_SAMPLING_GREEDY))
             audioData (Z.of_nat (List.length audioData)) e in
  Mach.jlong_range contextPtr ->
  contextPtr <> 0 ->
  fst r = 0 ->
  whisper_full_n_segments ctx (snd r) <= 0 ->
  Java_it_shek_dictator_app_WhisperLib_transcribe contextPtr audioData e
  = (Returned EmptyString, snd r,
     inference_events ctx audioData ++
     [ whisper_full_n_segments_ev ctx;
       android_log_print ANDROID_LOG_INFO TAG "Transcription result: %s"
                         [ArgString EmptyString];
       NewStringUTF_ev EmptyString ]).
Proof.
  intros ctx r Hrange Hnz Hstatus Hcount.
  rewrite (transcribe_run contextPtr audioData e
             (MachFacts.nonnull_test contextPtr Hrange Hnz)).
  cbv zeta. fold ctx. fold r. rewrite Hstatus. cbn [Z.eqb negb].
  unfold reported_segment_texts, gathering_events.
  replace (Z.to_nat (whisper_full_n_segments ctx (snd r))) with 0%nat by lia.
  reflexivity.
Qed.

(** X7.  When every segment that a successful inference reports, the
    indices from 0 up to the count, has a null text pointer, each of them is
    still asked for, in order, and [transcribe] returns the empty string.
    What the engine would answer at an index it does not report plays no
    part. *)
Theorem transcribe_all_texts_null (contextPtr : Z) (audioData : list jfloat)
    (e : engine_state) :
  let ctx := Mach.ptr_of_jlong contextPtr in
  let r := whisper_full ctx
             (pin_params (whisper_full_default_params WHISPER_SAMPLING_GREEDY))
             audioData (Z.of_nat (List.length audioData)) e in
  Mach.jlong_range contextPtr ->
  contextPtr <> 0 ->
  fst r = 0 ->
  (forall i, 0 <= i < whisper_full_n_segments ctx (snd r) ->
             whisper_full_get_segment_text ctx i (snd r) = None) ->
  outcome_of (Java_it_shek_dictator_app_WhisperLib_transcribe
                contextPtr audioData e)
  = Returned EmptyString /\
  segment_reads (events_of (Java_it_shek_dictator_app_WhisperLib_transcribe
                              contextPtr audioData e))
  = map (fun i => (ctx, i))
        (indices 0 (Z.to_nat (whisper_full_n_segments ctx (snd r)))).
Proof.
  intros ctx r Hrange Hnz Hstatus Hnull.
  rewrite (transcribe_run contextPtr audioData e
             (MachFacts.nonnull_test contextPtr Hrange Hnz)).
  cbv zeta. fold ctx. fold r. rewrite Hstatus. cbn [Z.eqb negb].
  assert (Htexts : reported_segment_texts ctx (snd r) = []).
  { unfold reported_segment_texts. apply flat_map_nil_in.
    intros i Hin. unfold segment_text.
    now rewrite (Hnull i (reported_index_bounds _ i Hin)). }
  rewrite Htexts. cbn [concatenation].
  change (trim_text EmptyString) with (Returned EmptyString).
  split; [reflexivity |].
  unfold events_of. cbn [snd].
  rewrite !segment_reads_app, segment_reads_gathering.
  cbn [segment_reads inference_events flat_map app]. now rewrite app_nil_r.
Qed.

(** X8.  What a successful [transcribe] returns is the gathered text with
    whitespace taken off its two ends and nothing else: the gathered text is
    whitespace, then the returned text, then whitespace, and the returned
    text neither starts nor ends with a whitespace character.  Whitespace
    inside, between segments included, stays. *)
Theorem transcribe_trims_edges_only (contextPtr : Z) (audioData : list jfloat)
    (e : engine_state) :
  let ctx := Mach.ptr_of_jlong contextPtr in
  let r := whisper_full ctx
             (pin_params (whisper_full_default_params WHISPER_SAMPLING_GREEDY))
             audioData (Z.of_nat (List.length audioData)) e in
  let gathered := concatenation (reported_segment_texts ctx (snd r)) in
  Mach.jlong_range contextPtr ->
  contextPtr <> 0 ->
  fst r = 0 ->
  size gathered < npos ->
  exists text before after : string,
    outcome_of (Java_it_shek_dictator_app_WhisperLib_transcribe
                  contextPtr audioData e)
    = Returned text /\
    gathered = (before ++ text ++ after)%string /\
    all_whitespace before = true /\
    all_whitespace after = true /\
    starts_with_whitespace text = false /\
    ends_with_whitespace text = false.
Proof.
  intros ctx r gathered Hrange Hnz Hstatus Hsize.
  destruct (transcribe_cases contextPtr audioData e
              (MachFacts.nonnull_test contextPtr Hrange Hnz) Hsize)
    as [[Hfail _] | [_ Hrun]]; [contradiction |].
  fold ctx in Hrun. fold r in Hrun. fold gathered in Hrun.
  destruct (TranscriptFacts.trimmed_split gathered)
    as [before [after [Hbefore [Hafter Hsplit]]]].
  destruct (TranscriptFacts.trimmed_edges gathered) as [Hstart Hend].
  exists (trimmed gathered), before, after.
  rewrite Hrun. repeat split; assumption.
Qed.

(** X9.  A successful [transcribe] returns the empty string exactly when
    the gathered text has nothing but whitespace in it. *)
Theorem transcribe_empty_iff_whitespace (contextPtr : Z)
    (audioData : list jfloat) (e : engine_state) :
  let ctx := Mach.ptr_of_jlong contextPtr in
  let r := whisper_full ctx
             (pin_params (whisper_full_default_params WHISPER_SAMPLING_GREEDY))
             audioData (Z.of_nat (List.length audioData)) e in
  let gathered := concatenation (reported_segment_texts ctx (snd r)) in
  Mach.jlong_range contextPtr ->
  contextPtr <> 0 ->
  fst r = 0 ->
  size gathered < npos ->
  (outcome_of (Java_it_shek_dictator_app_WhisperLib_transcribe
                 contextPtr audioData e)
   = Returned EmptyString
   <-> all_whitespace gathered = true).
Proof.
  intros ctx r gathered Hrange Hnz Hstatus Hsize.
  destruct (transcribe_cases contextPtr audioData e
              (MachFacts.nonnull_test contextPtr Hrange Hnz) Hsize)
    as [[Hfail _] | [_ Hrun]]; [contradiction |].
  fold ctx in Hrun. fold r in Hrun. fold gathered in Hrun.
  rewrite Hrun. unfold outcome_of. cbn [fst].
  rewrite <- (TranscriptMore.trimmed_empty_iff gathered).
  split; [now intros [= ->] | now intros ->].
Qed.

(** X10.  A gathered text that neither starts nor ends with whitespace is
    returned as it is. *)
Theorem transcribe_keeps_clean_text (contextPtr : Z) (audioData : list jfloat)
    (e : engine_state) :
  let ctx := Mach.ptr_of_jlong contextPtr in
  let r := whisper_full ctx
             (pin_params (whisper_full_default_params WHISPER_SAMPLING_GREEDY))
             audioData (Z.of_nat (List.length audioData)) e in
  let gathered := concatenation (reported_segment_texts ctx (snd r)) in
  Mach.jlong_range contextPtr ->
  contextPtr <> 0 ->
  fst r = 0 ->
  size gathered < npos ->
  starts_with_whitespace gathered = false ->
  ends_with_whitespace gathered = false ->
  outcome_of (Java_it_shek_dictator_app_WhisperLib_transcribe
                contextPtr audioData e)
  = Returned gathered.
Proof.
  intros ctx r gathered Hrange Hnz Hstatus Hsize Hstart Hend.
  destruct (transcribe_cases contextPtr audioData e
              (MachFacts.nonnull_test contextPtr Hrange Hnz) Hsize)
    as [[Hfail _] | [_ Hrun]]; [contradiction |].
  fold ctx in Hrun. fold r in Hrun. fold gathered in Hrun.
  rewrite Hrun. unfold outcome_of. cbn [fst].
  now rewrite (TranscriptMore.trimmed_fixed gathered Hstart Hend).
Qed.

(** X11.  Trimming as lines 74-81 do it is idempotent: run on its own
    result it returns that result, and it does not throw. *)
Theorem trim_text_idempotent (text : string) :
  size text < npos ->
  exists t : string,
    trim_text text = Returned t /\ trim_text t = Returned t.
Proof.
  intros Hsize. exists (trimmed text).
  split; [now apply TrimFacts.trim_text_trimmed |].
  rewrite TrimFacts.trim_text_trimmed
    by (pose proof (TranscriptMore.trimmed_size text); lia).
  now rewrite TranscriptMore.trimmed_idempotent.
Qed.

End ReturnedText.

(** ** What the engine and the log see *)

Section EngineAndLog.
Context {W : WhisperEngine}.
Import StdString Transcript.

(** X12.  After a successful inference [transcribe] asks for the text of
    each segment once, in ascending order from index 0 up to the reported
    count, on the context of the handle; after a failed one it asks for
    none. *)
Theorem transcribe_reads_segments_in_order (contextPtr : Z)
    (audioData : list jfloat) (e : engine_state) :
  let ctx := Mach.ptr_of_jlong contextPtr in
  let r := whisper_full ctx
             (pin_params (whisper_full_default_params WHISPER_SAMPLING_GREEDY))
             audioData (Z.of_nat (List.length audioData)) e in
  let reads :=
    segment_reads (events_of (Java_it_shek_dictator_app_WhisperLib_transcribe
                                contextPtr audioData e)) in
  Mach.jlong_range contextPtr ->
  contextPtr <> 0 ->
  (fst r = 0 ->
   reads = map (fun i => (ctx, i))
               (indices 0 (Z.to_nat (whisper_full_n_segments ctx (snd r)))) /\
   List.length reads = Z.to_nat (whisper_full_n_segments ctx (snd r))) /\
  (fst r <> 0 -> reads = []).
Proof.
  intros ctx r reads Hrange Hnz. unfold reads.
  rewrite (transcribe_run contextPtr audioData e
             (MachFacts.nonnull_test contextPtr Hrange Hnz)).
  cbv zeta. fold ctx. fold r. split.
  - intros Hstatus. rewrite Hstatus. cbn [Z.eqb negb].
    assert (Hreads :
              segment_reads
                (events_of
                   match trim_text (concatenation
                                      (reported_segment_texts ctx (snd r)))
                   with
                   | Returned text =>
                       (Returned (c_chars text), snd r,
                        inference_events ctx audioData ++
                        gathering_events ctx (snd r) ++
                        [ android_log_print ANDROID_LOG_INFO TAG
                                            "Transcription result: %s"
                                            [ArgString (c_chars text)];
                          NewStringUTF_ev (c_chars text) ])
                   | Thrown x =>
                       (Thrown x, snd r,
                        inference_events ctx audioData ++
                        gathering_events ctx (snd r))
                   end)
              = map (fun i => (ctx, i))
                    (indices 0 (Z.to_nat (whisper_full_n_segments ctx (snd r))))).
    { destruct (trim_text _); unfold events_of; cbn [snd];
        rewrite !segment_reads_app, segment_reads_gathering;
        cbn [segment_reads inference_events flat_map app];
        rewrite ?app_nil_r; reflexivity. }
    rewrite Hreads. split; [reflexivity |].
    rewrite length_map.
    generalize (Z.to_nat (whisper_full_n_segments ctx (snd r))).
    generalize 0. intros i n. revert i.
    induction n as [| n IH]; intros i; [reflexivity |].
    cbn [indices List.length]. now rewrite IH.
  - intros Hstatus. apply Z.eqb_neq in Hstatus. rewrite Hstatus.
    reflexivity.
Qed.

(** X13.  [initContext] writes two log lines, and one of them at error
    priority exactly when the engine's constructor returned no context. *)
Theorem initContext_error_log (modelPath : string) (e : engine_state) :
  let r := whisper_init_from_file_with_params
             modelPath whisper_context_default_params e in
  let evs := events_of (Java_it_shek_dictator_app_WhisperLib_initContext
                          modelPath e) in
  count is_log evs = 2%nat /\
  (fst r = Mach.nullptr -> count is_error_log evs = 1%nat) /\
  (fst r <> Mach.nullptr -> count is_error_log evs = 0%nat).
Proof.
  intros r evs. unfold evs.
  rewrite (initContext_run modelPath e). cbv zeta. fold r.
  destruct (Z.eqb_spec (fst r) Mach.nullptr) as [Hnull | Hctx];
    repeat split; (reflexivity || (intros; contradiction)).
Qed.

(** X14.  A [transcribe] on a non-zero handle writes a log line at error
    priority exactly when the inference returned a non-zero status; the line
    carries that status. *)
Theorem transcribe_error_log (contextPtr : Z) (audioData : list jfloat)
    (e : engine_state) :
  let ctx := Mach.ptr_of_jlong contextPtr in
  let r := whisper_full ctx
             (pin_params (whisper_full_default_params WHISPER_SAMPLING_GREEDY))
             audioData (Z.of_nat (List.length audioData)) e in
  let evs := events_of (Java_it_shek_dictator_app_WhisperLib_transcribe
                          contextPtr audioData e) in
  Mach.jlong_range contextPtr ->
  contextPtr <> 0 ->
  (fst r = 0 -> count is_error_log evs = 0%nat) /\
  (fst r <> 0 ->
   filter is_error_log evs
   = [android_log_print ANDROID_LOG_ERROR TAG
                        "Transcription failed with code %d" [ArgInt (fst r)]]).
Proof.
  intros ctx r evs Hrange Hnz. unfold evs.
  rewrite (transcribe_run contextPtr audioData e
             (MachFacts.nonnull_test contextPtr Hrange Hnz)).
  cbv zeta. fold ctx. fold r. split.
  - intros Hstatus. rewrite Hstatus. cbn [Z.eqb negb].
    destruct (trim_text _); unfold events_of; cbn [snd];
      rewrite !count_app, (count_none _ _ (gathering_no_error ctx (snd r)));
      reflexivity.
  - intros Hstatus. apply Z.eqb_neq in Hstatus. rewrite Hstatus.
    reflexivity.
Qed.

(** X15.  On success the last log line of [transcribe] carries the very
    string that is returned, and building that string is the last thing the
    call does. *)
Theorem transcribe_logs_what_it_returns (contextPtr : Z)
    (audioData : list jfloat) (e : engine_state) :
  let ctx := Mach.ptr_of_jlong contextPtr in
  let r := whisper_full ctx
             (pin_params (whisper_full_default_params WHISPER_SAMPLING_GREEDY))
             audioData (Z.of_nat (List.length audioData)) e in
  Mach.jlong_range contextPtr ->
  contextPtr <> 0 ->
  fst r = 0 ->
  size (concatenation (reported_segment_texts ctx (snd r))) < npos ->
  exists (text : string) (pre : list Event),
    outcome_of (Java_it_shek_dictator_app_WhisperLib_transcribe
                  contextPtr audioData e)
    = Returned text /\
    events_of (Java_it_shek_dictator_app_WhisperLib_transcribe
                 contextPtr audioData e)
    = pre ++ [ android_log_print ANDROID_LOG_INFO TAG
                                 "Transcription result: %s" [ArgString text];
               NewStringUTF_ev text ] /\
    Forall (fun ev => is_error_log ev = false) pre.
Proof.
  intros ctx r Hrange Hnz Hstatus Hsize.
  destruct (transcribe_cases contextPtr audioData e
              (MachFacts.nonnull_test contextPtr Hrange Hnz) Hsize)
    as [[Hfail _] | [_ Hrun]]; [contradiction |].
  fold ctx in Hrun. fold r in Hrun. rewrite Hrun.
  eexists _, (inference_events ctx audioData ++ gathering_events ctx (snd r)).
  split; [reflexivity |]. split.
  - unfold events_of. cbn [snd]. now rewrite app_assoc.
  - apply Forall_app. split; [repeat constructor |].
    apply gathering_no_error.
Qed.

(** X16.  [transcribe] never creates and never frees a context, whatever
    the handle, the audio and the engine's answers are. *)
Theorem transcribe_never_creates_or_frees (contextPtr : Z)
    (audioData : list jfloat) (e : engine_state) :
  let evs := events_of (Java_it_shek_dictator_app_WhisperLib_transcribe
                          contextPtr audioData e) in
  Forall (fun ev => is_lifecycle_call ev = false) evs /\
  free_calls evs = [].
Proof.
  intros evs.
  pose proof (transcribe_no_lifecycle contextPtr audioData e) as Hlife.
  split; [exact Hlife | now apply free_calls_none].
Qed.

(** X17.  [initContext] and [freeContext] never run an inference and never
    read a result: neither calls [whisper_full], its parameter constructor
    or a segment accessor. *)
Theorem load_and_free_never_infer (e : engine_state) :
  (forall modelPath : string,
      Forall (fun ev => is_inference_call ev = false)
             (events_of (Java_it_shek_dictator_app_WhisperLib_initContext
                           modelPath e))) /\
  (forall contextPtr : Z,
      Forall (fun ev => is_inference_call ev = false)
             (events_of (Java_it_shek_dictator_app_WhisperLib_freeContext
                           contextPtr e))).
Proof.
  split.
  - intros modelPath. rewrite (initContext_run modelPath e). cbv zeta.
    destruct (_ =? Mach.nullptr); repeat constructor.
  - intros contextPtr. rewrite (freeContext_run contextPtr e). cbv zeta.
    destruct (_ =? Mach.nullptr); repeat constructor.
Qed.

(** X18.  Two contexts at different addresses never get the same handle from
    [initContext], so a handle names one context. *)
Theorem initContext_distinct_handles (path1 path2 : string)
    (e1 e2 : engine_state) :
  let r1 := whisper_init_from_file_with_params
              path1 whisper_context_default_params e1 in
  let r2 := whisper_init_from_file_with_params
              path2 whisper_context_default_params e2 in
  Mach.ptr_range (fst r1) ->
  Mach.ptr_range (fst r2) ->
  fst r1 <> fst r2 ->
  outcome_of (Java_it_shek_dictator_app_WhisperLib_initContext path1 e1)
  <> outcome_of (Java_it_shek_dictator_app_WhisperLib_initContext path2 e2).
Proof.
  intros r1 r2 Hrange1 Hrange2 Hdiff.
  assert (Hhandle : forall path e,
             outcome_of (Java_it_shek_dictator_app_WhisperLib_initContext
                           path e)
             = Returned (Mach.jlong_of_ptr
                           (fst (whisper_init_from_file_with_params
                                   path whisper_context_default_params e)))).
  { intros path e. rewrite (initContext_run path e). cbv zeta.
    destruct (Z.eqb_spec
                (fst (whisper_init_from_file_with_params
                        path whisper_context_default_params e))
                Mach.nullptr) as [-> | _]; reflexivity. }
  rewrite !Hhandle. fold r1. fold r2. intros [= Heq].
  apply Hdiff.
  rewrite <- (MachFacts.ptr_of_jlong_of_ptr (fst r1) Hrange1).
  rewrite <- (MachFacts.ptr_of_jlong_of_ptr (fst r2) Hrange2).
  now rewrite Heq.
Qed.

End EngineAndLog.

(** * The further properties at work *)

Module MoreRuns.
Import StdString Transcript.

Lemma demo_context_in_range : Mach.ptr_range Demo.context_address.
Proof. vm_compute. split; [discriminate | reflexivity]. Defined.

Lemma demo_context_not_null : Demo.context_address <> Mach.nullptr.
Proof. discriminate. Defined.

Lemma demo_handle_in_range : Mach.jlong_range Demo.handle.
Proof. vm_compute. split; [discriminate | reflexivity]. Defined.

Lemma demo_handle_nonzero : Demo.handle <> 0.
Proof. discriminate. Defined.

Lemma quiet_handle_in_range : Mach.jlong_range Quiet.handle.
Proof. vm_compute. split; [discriminate | reflexivity]. Defined.

Lemma quiet_handle_nonzero : Quiet.handle <> 0.
Proof. discriminate. Defined.

Lemma load_and_transcribe_same_context_witness :
  full_calls (events_of (load_and_transcribe (W := Demo.engine)
                           Demo.model_file Demo.audio Demo.fresh))
  = [(Demo.context_address,
      pin_params (whisper_full_default_params (WhisperEngine := Demo.engine)
                    WHISPER_SAMPLING_GREEDY),
      Demo.audio, 3)].
Proof.
  exact (proj1 (load_and_transcribe_same_context
                  (W := Demo.engine) Demo.model_file Demo.audio Demo.fresh
                  demo_context_in_range demo_context_not_null)).
Defined.

Lemma session_after_failed_load_witness :
  session (W := Demo.engine) "missing.bin" Demo.audio Demo.fresh
  = (Returned EmptyString, Demo.fresh,
     loading_events (W := Demo.engine) "missing.bin" ++
     [ android_log_print ANDROID_LOG_ERROR TAG "Failed to load model" [];
       NewStringUTF_ev EmptyString ]).
Proof.
  exact (session_after_failed_load (W := Demo.engine) "missing.bin"
           Demo.audio Demo.fresh eq_refl).
Defined.

Lemma session_frees_loaded_context_witness :
  free_calls (events_of (session (W := Demo.engine)
                           Demo.model_file Demo.audio Demo.fresh))
  = [Demo.context_address].
Proof.
  refine (proj1 (proj2 (proj2 (session_frees_loaded_context
                                 (W := Demo.engine) Demo.model_file Demo.audio
                                 Demo.fresh demo_context_in_range
                                 demo_context_not_null _)))).
  vm_compute. reflexivity.
Defined.

Lemma free_twice_frees_twice_witness :
  free_twice (W := Demo.engine) Demo.handle Demo.segments
  = (Returned tt, [],
     [ whisper_free_ev (W := Demo.engine) Demo.context_address;
       android_log_print ANDROID_LOG_INFO TAG "Context freed" [];
       whisper_free_ev Demo.context_address;
       android_log_print ANDROID_LOG_INFO TAG "Context freed" [] ]).
Proof.
  exact (free_twice_frees_twice (W := Demo.engine) Demo.handle Demo.segments
           demo_handle_in_range demo_handle_nonzero).
Defined.

Lemma transcribe_after_free_reaches_engine_witness :
  full_calls (events_of (transcribe_after_free (W := Demo.engine)
                           Demo.handle Demo.audio Demo.segments))
  = [(Demo.context_address,
      pin_params (whisper_full_default_params (WhisperEngine := Demo.engine)
                    WHISPER_SAMPLING_GREEDY),
      Demo.audio, 3)].
Proof.
  exact (proj1 (proj2 (transcribe_after_free_reaches_engine
                         (W := Demo.engine) Demo.handle Demo.audio
                         Demo.segments
                         demo_handle_in_range demo_handle_nonzero))).
Defined.

Lemma transcribe_no_segments_witness :
  outcome_of (Java_it_shek_dictator_app_WhisperLib_transcribe
                (W := Quiet.engine []) Quiet.handle Demo.audio [])
  = Returned EmptyString.
Proof.
  refine (f_equal outcome_of
            (transcribe_no_segments (W := Quiet.engine []) Quiet.handle
               Demo.audio [] quiet_handle_in_range quiet_handle_nonzero
               eq_refl _)).
  vm_compute. discriminate.
Defined.

Lemma stray_handle_in_range : Mach.jlong_range Stray.handle.
Proof. vm_compute. split; [discriminate | reflexivity]. Defined.

Lemma stray_handle_nonzero : Stray.handle <> 0.
Proof. discriminate. Defined.

Lemma transcribe_all_texts_null_witness :
  whisper_full_get_segment_text (WhisperEngine := Stray.engine)
                                Stray.context_address 2 tt
  = Some "stray"%string /\
  outcome_of (Java_it_shek_dictator_app_WhisperLib_transcribe
                (W := Stray.engine) Stray.handle Demo.audio tt)
  = Returned EmptyString.
Proof.
  split; [reflexivity |].
  refine (proj1 (transcribe_all_texts_null
                   (W := Stray.engine) Stray.handle Demo.audio tt
                   stray_handle_in_range stray_handle_nonzero eq_refl _)).
  intros i [Hlow Hhigh]. cbn in Hhigh |- *.
  apply Z.leb_le in Hlow. apply Z.ltb_lt in Hhigh.
  now rewrite Hlow, Hhigh.
Defined.

Lemma transcribe_trims_edges_only_witness :
  exists text : string,
    outcome_of (Java_it_shek_dictator_app_WhisperLib_transcribe
                  (W := Demo.engine) Demo.handle Demo.audio Demo.fresh)
    = Returned text /\
    starts_with_whitespace text = false /\
    ends_with_whitespace text = false.
Proof.
  assert (Hsize : size (concatenation
                          (reported_segment_texts (W := Demo.engine)
                             Demo.context_address Demo.segments)) < npos)
    by (vm_compute; reflexivity).
  destruct (transcribe_trims_edges_only
              (W := Demo.engine) Demo.handle Demo.audio Demo.fresh
              demo_handle_in_range demo_handle_nonzero eq_refl Hsize)
    as [text [before [after [Hout [_ [_ [_ [Hstart Hend]]]]]]]].
  exists text. repeat split; assumption.
Defined.

Lemma transcribe_empty_iff_whitespace_witness :
  outcome_of (Java_it_shek_dictator_app_WhisperLib_transcribe
                (W := Quiet.engine [Some " "; Some "  "]%string)
                Quiet.handle Demo.audio [])
  = Returned EmptyString.
Proof.
  refine (proj2 (transcribe_empty_iff_whitespace
                   (W := Quiet.engine [Some " "; Some "  "]%string)
                   Quiet.handle Demo.audio []
                   quiet_handle_in_range quiet_handle_nonzero eq_refl _) _).
  - vm_compute. reflexivity.
  - reflexivity.
Defined.

Lemma transcribe_keeps_clean_text_witness :
  outcome_of (Java_it_shek_dictator_app_WhisperLib_transcribe
                (W := Quiet.engine [Some "foo"; Some " bar"]%string)
                Quiet.handle Demo.audio [])
  = Returned "foo bar"%string.
Proof.
  refine (transcribe_keeps_clean_text
            (W := Quiet.engine [Some "foo"; Some " bar"]%string)
            Quiet.handle Demo.audio []
            quiet_handle_in_range quiet_handle_nonzero eq_refl _ _ _).
  - vm_compute. reflexivity.
  - reflexivity.
  - reflexivity.
Defined.

Lemma trim_text_idempotent_witness :
  exists t : string,
    trim_text "  hello world "%string = Returned t /\ trim_text t = Returned t.
Proof.
  refine (trim_text_idempotent "  hello world "%string _).
  vm_compute. reflexivity.
Defined.

Lemma transcribe_reads_segments_in_order_witness :
  segment_reads (events_of (Java_it_shek_dictator_app_WhisperLib_transcribe
                              (W := Demo.engine) Demo.handle Demo.audio
                              Demo.fresh))
  = [(Demo.context_address, 0); (Demo.context_address, 1);
     (Demo.context_address, 2)].
Proof.
  exact (proj1 (proj1 (transcribe_reads_segments_in_order
                         (W := Demo.engine) Demo.handle Demo.audio Demo.fresh
                         demo_handle_in_range demo_handle_nonzero)
                  eq_refl)).
Defined.

Lemma initContext_error_log_witness :
  count is_error_log
        (events_of (Java_it_shek_dictator_app_WhisperLib_initContext
                      (W := Demo.engine) "missing.bin" Demo.fresh))
  = 1%nat.
Proof.
  exact (proj1 (proj2 (initContext_error_log (W := Demo.engine)
                         "missing.bin" Demo.fresh))
           eq_refl).
Defined.

Lemma transcribe_error_log_witness :
  filter is_error_log
         (events_of (Java_it_shek_dictator_app_WhisperLib_transcribe
                       (W := Demo.engine) Demo.handle [] Demo.fresh))
  = [android_log_print (W := Demo.engine) ANDROID_LOG_ERROR TAG
                       "Transcription failed with code %d" [ArgInt (-3)]].
Proof.
  refine (proj2 (transcribe_error_log (W := Demo.engine) Demo.handle []
                   Demo.fresh demo_handle_in_range demo_handle_nonzero) _).
  vm_compute. discriminate.
Defined.

Lemma transcribe_logs_what_it_returns_witness :
  exists (text : string) (pre : list (Event (W := Demo.engine))),
    outcome_of (Java_it_shek_dictator_app_WhisperLib_transcribe
                  (W := Demo.engine) Demo.handle Demo.audio Demo.fresh)
    = Returned text /\
    events_of (Java_it_shek_dictator_app_WhisperLib_transcribe
                 (W := Demo.engine) Demo.handle Demo.audio Demo.fresh)
    = pre ++ [ android_log_print ANDROID_LOG_INFO TAG
                                 "Transcription result: %s" [ArgString text];
               NewStringUTF_ev text ].
Proof.
  assert (Hsize : size (concatenation
                          (reported_segment_texts (W := Demo.engine)
                             Demo.context_address Demo.segments)) < npos)
    by (vm_compute; reflexivity).
  destruct (transcribe_logs_what_it_returns
              (W := Demo.engine) Demo.handle Demo.audio Demo.fresh
              demo_handle_in_range demo_handle_nonzero eq_refl Hsize)
    as [text [pre [Hout [Hevents _]]]].
  exists text, pre. split; assumption.
Defined.

Lemma initContext_distinct_handles_witness :
  outcome_of (Java_it_shek_dictator_app_WhisperLib_initContext
                (W := Demo.engine) Demo.model_file Demo.fresh)
  <> outcome_of (Java_it_shek_dictator_app_WhisperLib_initContext
                   (W := Demo.engine) "missing.bin" Demo.fresh).
Proof.
  refine (initContext_distinct_handles (W := Demo.engine)
            Demo.model_file "missing.bin" Demo.fresh Demo.fresh
            demo_context_in_range _ _).
  - vm_compute. split; [discriminate | reflexivity].
  - vm_compute. discriminate.
Defined.

End MoreRuns.
